(** * MazKhatWeb: ledger balances, local storage, backup and cloud sync

    A shallow embedding of the bookkeeping core of the application:
    - [src/screens/AddTransactionScreen.js] ([handleConfirm]),
    - [src/utils/storage.js] (the AsyncStorage / Firestore layer),
    - [src/utils/backup.js] (export, import and validation of backup files).

    Conventions of the embedding.
    - A JavaScript number that holds money is a [Z] (an amount in minor
      units); IEEE rounding is outside the model.
    - A [date] field is the instant [new Date(date)] denotes, in
      milliseconds, as a [Z]; unparsable dates are outside the model.
    - [Array.prototype.sort] is stable; it is modelled by a stable
      insertion sort on the key the comparator subtracts.
    - [await] is sequencing: every operation runs alone on the world; a
      call started without [await] is a pending task, and nothing runs
      between two operations.
    - The typed records are the shapes the application itself writes.  A
      stored text that parses to a value of another shape ([null], a
      number, an object with other fields) is outside the typed
      collections, and what the code does when it indexes or iterates
      such a value is not modelled: [ledgersShaped], [expensesShaped] and
      [categoriesShaped] state that the stored texts are not of that
      kind.
    - A [gmap] does not record the order in which a JavaScript object
      holds its keys; where [for ... in] makes the order matter, the
      world supplies it ([ledgerKeyOrder]). *)

From Stdlib Require Import ZArith Lia Sorting.Sorted Sorting.Permutation.
From stdpp Require Import gmap strings list fin_maps.

Local Open Scope Z_scope.

(** ** Data model *)

Inductive TxType := credit | debit.

#[global] Instance TxType_eq_dec : EqDecision TxType.
Proof. solve_decision. Defined.

Record Transaction := mkTransaction {
  tx_id : string;
  tx_type : TxType;
  tx_amount : Z;
  tx_note : option string;
  tx_date : Z;
  tx_displayDate : option string;
  tx_billPhoto : option string;
  tx_balanceAfter : option Z
}.

Record Ledger := mkLedger {
  l_id : string;
  l_name : string;
  l_phone : option string;
  l_address : option string;
  l_balance : Z;
  l_transactions : list Transaction
}.

(** [{ ...t, balanceAfter: b }] *)
Definition withBalanceAfter (t : Transaction) (b : Z) : Transaction :=
  {| tx_id := tx_id t; tx_type := tx_type t; tx_amount := tx_amount t;
     tx_note := tx_note t; tx_date := tx_date t;
     tx_displayDate := tx_displayDate t; tx_billPhoto := tx_billPhoto t;
     tx_balanceAfter := Some b |}.

(** [{ ...ledger, balance: b, transactions: ts }] *)
Definition withBalanceAndTransactions
    (ledger : Ledger) (b : Z) (ts : list Transaction) : Ledger :=
  {| l_id := l_id ledger; l_name := l_name ledger; l_phone := l_phone ledger;
     l_address := l_address ledger; l_balance := b; l_transactions := ts |}.

(** ** calculations.js *)

(** [calculateBalance(currentBalance, type, amount)]: credit is money
    received and increases the balance, debit decreases it. *)
Definition calculateBalance (currentBalance : Z) (type : TxType) (amount : Z) : Z :=
  match type with
  | credit => currentBalance + amount
  | debit => currentBalance - amount
  end.

(** ** The sign convention of the specification *)

(** Credit amounts count as positive, debit amounts as negative. *)
Definition signedAmount (t : Transaction) : Z :=
  match tx_type t with
  | credit => tx_amount t
  | debit => - tx_amount t
  end.

Definition signedSum (ts : list Transaction) : Z :=
  foldr (fun t acc => signedAmount t + acc) 0 ts.

(** The cumulative signed sum through index [i] (inclusive). *)
Definition cumulativeThrough (ts : list Transaction) (i : nat) : Z :=
  signedSum (take (S i) ts).

(** ** Sorting by date: [ts.sort((a, b) => new Date(a.date) - new Date(b.date))] *)

Fixpoint insertByDate (t : Transaction) (l : list Transaction) : list Transaction :=
  match l with
  | [] => [t]
  | x :: r => if tx_date t <=? tx_date x then t :: l else x :: insertByDate t r
  end.

Definition sortByDate (l : list Transaction) : list Transaction :=
  foldr insertByDate [] l.

Definition dateLe (a b : Transaction) : Prop := tx_date a <= tx_date b.

(** ** AddTransactionScreen.js, [handleConfirm] *)

(** What the screen holds when the user confirms: the route parameters
    ([ledger], [type], [editTransaction]) and the form state.  [numAmount]
    is the value of [evaluateMathExpression(amount)] and [newId] the value
    [generateId()] would return. *)
Record ConfirmForm := mkConfirmForm {
  cf_type : TxType;
  cf_editTransaction : option Transaction;
  cf_numAmount : Z;
  cf_note : option string;
  cf_selectedDate : Z;
  cf_date : option string;
  cf_billPhoto : option string;
  cf_newId : string
}.

Definition transactionData (f : ConfirmForm) : Transaction :=
  {| tx_id := match cf_editTransaction f with
              | Some e => tx_id e
              | None => cf_newId f
              end;
     tx_type := cf_type f;
     tx_amount := cf_numAmount f;
     tx_note := cf_note f;
     tx_date := cf_selectedDate f;
     tx_displayDate := cf_date f;
     tx_billPhoto := cf_billPhoto f;
     tx_balanceAfter := None |}.

(** Lines 109-115: replace the edited transaction, or append the new one. *)
Definition updatedTransactions (ledger : Ledger) (f : ConfirmForm) : list Transaction :=
  match cf_editTransaction f with
  | Some e =>
      map (fun t => if decide (tx_id t = tx_id e) then transactionData f else t)
          (l_transactions ledger)
  | None => l_transactions ledger ++ [transactionData f]
  end.

(** Lines 121-126: the [map] whose callback updates the captured
    [runningBalance]; the second component is [runningBalance] after the
    walk. *)
Fixpoint recalculate (runningBalance : Z) (ts : list Transaction)
    : list Transaction * Z :=
  match ts with
  | [] => ([], runningBalance)
  | t :: rest =>
      let runningBalance' :=
        match tx_type t with
        | credit => runningBalance + tx_amount t
        | debit => runningBalance - tx_amount t
        end in
      let '(rest', final) := recalculate runningBalance' rest in
      (withBalanceAfter t runningBalance' :: rest', final)
  end.

(** Lines 117-134: the ledger handed to [saveLedger]. *)
Definition recomputeLedger (ledger : Ledger) (updated : list Transaction) : Ledger :=
  let '(ts, newBalance) := recalculate 0 (sortByDate updated) in
  withBalanceAndTransactions ledger newBalance ts.

(** [handleConfirm] up to the call of [saveLedger]: [None] when the amount
    is rejected ([numAmount <= 0]), otherwise [updatedLedger]. *)
Definition handleConfirm (ledger : Ledger) (f : ConfirmForm) : option Ledger :=
  if cf_numAmount f <=? 0 then None
  else Some (recomputeLedger ledger (updatedTransactions ledger f)).

(** ** storage.js, the pure core of [deleteTransaction] (lines 136-150) *)

(** [updatedTransactions.forEach(t => { if (t.type === 'credit') newBalance -= t.amount;
    else newBalance += t.amount; })] *)
Definition deleteBalance (ts : list Transaction) : Z :=
  fold_left (fun newBalance t =>
               match tx_type t with
               | credit => newBalance - tx_amount t
               | debit => newBalance + tx_amount t
               end) ts 0.

Definition removeTransaction (ledger : Ledger) (transactionId : string) : Ledger :=
  let updated := filter (fun t => tx_id t ≠ transactionId) (l_transactions ledger) in
  withBalanceAndTransactions ledger (deleteBalance updated) updated.

(** ** JSON values and the JavaScript operations applied to them *)

#[warnings="-register-all"]
Inductive json :=
  | JNull
  | JBool (b : bool)
  | JNum (n : Z)
  | JStr (s : string)
  | JArr (items : list json)
  | JObj (fields : gmap string json).

Inductive jsType := TyUndefined | TyObject | TyBoolean | TyNumber | TyString.

#[global] Instance jsType_eq_dec : EqDecision jsType.
Proof. solve_decision. Defined.

(** A JavaScript value read from parsed JSON is an [option json]:
    [None] is [undefined]. *)
Definition typeof (v : option json) : jsType :=
  match v with
  | None => TyUndefined
  | Some JNull | Some (JArr _) | Some (JObj _) => TyObject
  | Some (JBool _) => TyBoolean
  | Some (JNum _) => TyNumber
  | Some (JStr _) => TyString
  end.

(** [!!v] *)
Definition truthy (v : option json) : bool :=
  match v with
  | None | Some JNull => false
  | Some (JBool b) => b
  | Some (JNum n) => negb (n =? 0)
  | Some (JStr s) => negb (String.eqb s "")
  | Some (JArr _) | Some (JObj _) => true
  end.

(** [Array.isArray(v)] *)
Definition isArray (v : option json) : bool :=
  match v with
  | Some (JArr _) => true
  | _ => false
  end.

(** [o.k] for a field name [k] that is neither an array index nor
    [length]: reading from [null] or [undefined] throws a TypeError (the
    outer [None]); primitives and arrays have no such field. *)
Definition getField (o : option json) (k : string) : option (option json) :=
  match o with
  | None | Some JNull => None
  | Some (JObj fields) => Some (fields !! k)
  | Some _ => Some None
  end.

(** The values [o[key]] that [for (const key in o)] visits, for [o] of
    type object. *)
Definition forInValues (o : json) : list json :=
  match o with
  | JObj fields => (map_to_list fields).*2
  | JArr items => items
  | _ => []
  end.

(** [Object.keys(o).length] *)
Definition keysLength (o : json) : nat :=
  match o with
  | JObj fields => size fields
  | JArr items => length items
  | _ => 0%nat
  end.

(** ** backup.js, [validateBackupFile] *)

(** The body of the [for ... in] loop for one ledger: [Some false] is
    [return false], [Some true] lets the loop go on, [None] is a thrown
    TypeError. *)
Definition validateLedger (ledger : json) : option bool :=
  id ← getField (Some ledger) "id";
  if negb (truthy id) then Some false else
  name ← getField (Some ledger) "name";
  if negb (truthy name) then Some false else
  balance ← getField (Some ledger) "balance";
  if bool_decide (typeof balance ≠ TyNumber) then Some false else
  transactions ← getField (Some ledger) "transactions";
  if truthy transactions && negb (isArray transactions) then Some false
  else Some true.

Fixpoint validateLedgers (ledgers : list json) : option bool :=
  match ledgers with
  | [] => Some true
  | ledger :: rest =>
      ok ← validateLedger ledger;
      if (ok : bool) then validateLedgers rest else Some false
  end.

Definition validateBody (data : json) : option bool :=
  version ← getField (Some data) "version";
  if negb (truthy version) then Some false else
  ledgers ← getField (Some data) "ledgers";
  if negb (truthy ledgers) then Some false else
  if bool_decide (typeof ledgers ≠ TyObject) then Some false else
  match ledgers with
  | Some o => validateLedgers (forInValues o)
  | None => Some true
  end.

(** [try { ... } catch (error) { return false; }] *)
Definition validateBackupFile (data : json) : bool :=
  default false (validateBody data).

(** ** The remaining collections *)

Record Expense := mkExpense {
  e_id : string;
  e_title : string;
  e_amount : Z;
  e_category : string;
  e_date : Z
}.

Record Category := mkCategory {
  c_id : string;
  c_icon : string;
  c_color : string
}.

Inductive SyncStatus := idle | syncing | error.

Record BackupSettings := mkBackupSettings {
  autoBackup : bool;
  lastSync : option Z;
  syncStatus : SyncStatus
}.



Definition defaultSettings : BackupSettings :=
  {| autoBackup := false; lastSync := None; syncStatus := idle |}.

Definition defaultCategories : list Category :=
  [ mkCategory "Food" "food" "#FF7043";
    mkCategory "Travel" "car" "#42A5F5";
    mkCategory "Study" "book-open-variant" "#66BB6A";
    mkCategory "Rent" "home-city" "#9C27B0";
    mkCategory "Entertainment" "movie-open" "#E91E63";
    mkCategory "Health" "heart-pulse" "#F44336";
    mkCategory "Salary" "cash-multiple" "#009688";
    mkCategory "Other" "dots-horizontal" "#78909C" ].

(** ** JSON.stringify of the typed collections *)

Definition typeName (ty : TxType) : string :=
  match ty with
  | credit => "credit"
  | debit => "debit"
  end.

(** A field whose value is [undefined] is left out by [JSON.stringify]. *)
Definition optField (k : string) (v : option json) : list (string * json) :=
  match v with
  | Some x => [(k, x)]
  | None => []
  end.

(** An instant is written as its millisecond count. *)
Definition transactionToJson (t : Transaction) : json :=
  JObj (list_to_map
    ([("id", JStr (tx_id t)); ("type", JStr (typeName (tx_type t)));
      ("amount", JNum (tx_amount t)); ("date", JNum (tx_date t))]
     ++ optField "note" (JStr <$> tx_note t)
     ++ optField "displayDate" (JStr <$> tx_displayDate t)
     ++ optField "billPhoto" (JStr <$> tx_billPhoto t)
     ++ optField "balanceAfter" (JNum <$> tx_balanceAfter t))).

Definition ledgerToJson (l : Ledger) : json :=
  JObj (list_to_map
    ([("id", JStr (l_id l)); ("name", JStr (l_name l));
      ("balance", JNum (l_balance l));
      ("transactions", JArr (transactionToJson <$> l_transactions l))]
     ++ optField "phone" (JStr <$> l_phone l)
     ++ optField "address" (JStr <$> l_address l))).

Definition expenseToJson (e : Expense) : json :=
  JObj (list_to_map
    [("id", JStr (e_id e)); ("title", JStr (e_title e));
     ("amount", JNum (e_amount e)); ("category", JStr (e_category e));
     ("date", JNum (e_date e))]).

Definition categoryToJson (c : Category) : json :=
  JObj (list_to_map
    [("id", JStr (c_id c)); ("icon", JStr (c_icon c)); ("color", JStr (c_color c))]).

Definition statusName (s : SyncStatus) : string :=
  match s with
  | idle => "idle"
  | syncing => "syncing"
  | error => "error"
  end.

Definition settingsToJson (s : BackupSettings) : json :=
  JObj (list_to_map
    [("autoBackup", JBool (autoBackup s));
     ("lastSync", from_option JNum JNull (lastSync s));
     ("syncStatus", JStr (statusName (syncStatus s)))]).

(** ** The world the asynchronous operations run in *)

(** What a string kept in AsyncStorage (or in a file) holds: the empty
    string, which is falsy and which [JSON.parse] rejects; other text the
    parser rejects; or the [JSON.stringify] image of a value. *)
Inductive text (A : Type) :=
  | Blank
  | Garbage
  | Stringified (v : A).
Arguments Blank {A}.
Arguments Garbage {A}.
Arguments Stringified {A} v.

(** The documents the application stringifies into AsyncStorage. *)
Inductive content :=
  | CLedgers (ledgers : gmap string Ledger)
  | CExpenses (expenses : list Expense)
  | CCategories (categories : list Category)
  | CSettings (settings : BackupSettings)
  | CJson (v : json).

Definition ledgersToJson (ledgers : gmap string Ledger) : json :=
  JObj (ledgerToJson <$> ledgers).

Definition contentToJson (c : content) : json :=
  match c with
  | CLedgers ledgers => ledgersToJson ledgers
  | CExpenses expenses => JArr (expenseToJson <$> expenses)
  | CCategories categories => JArr (categoryToJson <$> categories)
  | CSettings settings => settingsToJson settings
  | CJson v => v
  end.

(** The ledger collection a parsed document is used as.  Every writer of
    a per-identity ledgers key stores a ledger collection.  A document of
    another kind holds no ledger entry; what the code does when it
    indexes or iterates such a document is outside the model (see
    [ledgersShaped] and [expensesShaped]). *)
Definition asLedgers (c : content) : gmap string Ledger :=
  match c with
  | CLedgers ledgers => ledgers
  | _ => ∅
  end.

Definition asExpenses (c : content) : list Expense :=
  match c with
  | CExpenses expenses => expenses
  | _ => []
  end.

Definition asCategories (c : content) : list Category :=
  match c with
  | CCategories categories => categories
  | _ => []
  end.

(** [{ ...defaults, ...JSON.parse(jsonValue) }] *)
Definition asSettings (c : content) : BackupSettings :=
  match c with
  | CSettings settings => settings
  | _ => defaultSettings
  end.

(** Firestore documents, one record per collection of the path scheme
    [users/{uid}/ledgers/{ledgerId}], [.../transactions/{transactionId}],
    [users/{uid}/expenses/{expenseId}], [users/{uid}/settings/categories]. *)
Record LedgerDoc := mkLedgerDoc {
  d_name : string;
  d_balance : Z;
  d_phone : string;
  d_address : string;
  d_updatedAt : Z
}.

Record TransactionDoc := mkTransactionDoc {
  d_type : TxType;
  d_amount : Z;
  d_date : Z;
  d_balanceAfter : option Z
}.

Record ExpenseDoc := mkExpenseDoc {
  d_expense : Expense;
  d_expenseUpdatedAt : Z
}.

Record CategoriesDoc := mkCategoriesDoc {
  d_list : list Category;
  d_listUpdatedAt : Z
}.

Record Firestore := mkFirestore {
  fs_ledgers : gmap (string * string) LedgerDoc;
  fs_transactions : gmap (string * string * string) TransactionDoc;
  fs_expenses : gmap (string * string) ExpenseDoc;
  fs_categories : gmap string CategoriesDoc
}.

Inductive Platform := web | native.

(** Calls that are started but not awaited. *)
Inductive Task :=
  | SyncLedgerTask (ledger : Ledger)
  | SyncAllTask.

(** [network] lists the fate of the coming Firestore calls, in order:
    [false] makes the call throw, and past the end every call succeeds.
    AsyncStorage and the file system are taken to be reliable.  [clock]
    is the instant [new Date()] reads and [today] the text
    [new Date().toISOString().split('T')[0]].  [ledgerKeyOrder] is the
    order in which the ledger collection of the current identity, once
    parsed, holds its keys: the order of the stored text, in which the
    ledgers were first saved.  The typed collection does not record it;
    the writers of the collection keep it up to date. *)
Record World := mkWorld {
  currentUser : option string;
  asyncStorage : gmap string (text content);
  ledgerKeyOrder : list string;
  firestore : Firestore;
  network : list bool;
  clock : Z;
  today : string;
  platform : Platform;
  documentDirectory : string;
  files : gmap string (text json);
  downloads : list (string * text json);
  background : list Task
}.

Definition setAsyncStorage (s : gmap string (text content)) (w : World) : World :=
  {| currentUser := currentUser w; asyncStorage := s;
     ledgerKeyOrder := ledgerKeyOrder w; firestore := firestore w;
     network := network w; clock := clock w; today := today w;
     platform := platform w; documentDirectory := documentDirectory w;
     files := files w; downloads := downloads w; background := background w |}.

Definition setRemote (fs : Firestore) (net : list bool) (w : World) : World :=
  {| currentUser := currentUser w; asyncStorage := asyncStorage w;
     ledgerKeyOrder := ledgerKeyOrder w; firestore := fs;
     network := net; clock := clock w; today := today w;
     platform := platform w; documentDirectory := documentDirectory w;
     files := files w; downloads := downloads w; background := background w |}.

Definition setFiles (fl : gmap string (text json)) (dl : list (string * text json))
    (w : World) : World :=
  {| currentUser := currentUser w; asyncStorage := asyncStorage w;
     ledgerKeyOrder := ledgerKeyOrder w; firestore := firestore w;
     network := network w; clock := clock w;
     today := today w; platform := platform w;
     documentDirectory := documentDirectory w;
     files := fl; downloads := dl; background := background w |}.

Definition setKeyOrder (order : list string) (w : World) : World :=
  {| currentUser := currentUser w; asyncStorage := asyncStorage w;
     ledgerKeyOrder := order; firestore := firestore w;
     network := network w; clock := clock w;
     today := today w; platform := platform w;
     documentDirectory := documentDirectory w;
     files := files w; downloads := downloads w; background := background w |}.

Definition setBackground (bg : list Task) (w : World) : World :=
  {| currentUser := currentUser w; asyncStorage := asyncStorage w;
     ledgerKeyOrder := ledgerKeyOrder w; firestore := firestore w;
     network := network w; clock := clock w;
     today := today w; platform := platform w;
     documentDirectory := documentDirectory w;
     files := files w; downloads := downloads w; background := bg |}.

(** ** The monad of asynchronous functions: state and exceptions *)

Inductive outcome (A : Type) :=
  | Returned (a : A)
  | Thrown (message : string).
Arguments Returned {A} a.
Arguments Thrown {A} message.

Definition Async (A : Type) : Type := World → outcome A * World.

#[global] Instance Async_ret : MRet Async :=
  λ A a w, (Returned a, w).

#[global] Instance Async_bind : MBind Async :=
  λ A B f m w,
    match m w with
    | (Returned a, w') => f a w'
    | (Thrown e, w') => (Thrown e, w')
    end.

Definition throw {A} (message : string) : Async A :=
  λ w, (Thrown message, w).

(** [try { body } catch (error) { handler(error.message) }] *)
Definition tryCatch {A} (body : Async A) (handler : string → Async A) : Async A :=
  λ w,
    match body w with
    | (Returned a, w') => (Returned a, w')
    | (Thrown e, w') => handler e w'
    end.

(** [auth.currentUser], as the uid *)
Definition getUser : Async (option string) :=
  λ w, (Returned (currentUser w), w).

(** [new Date()] *)
Definition now : Async Z :=
  λ w, (Returned (clock w), w).

Definition getPlatform : Async Platform :=
  λ w, (Returned (platform w), w).

(** [AsyncStorage.getItem(key)] *)
Definition getItem (key : string) : Async (option (text content)) :=
  λ w, (Returned (asyncStorage w !! key), w).

(** [AsyncStorage.setItem(key, JSON.stringify(value))] *)
Definition setItem (key : string) (value : content) : Async unit :=
  λ w, (Returned (), setAsyncStorage (<[key := Stringified value]> (asyncStorage w)) w).

(** The keys of a parsed ledger collection in the order [for ... in]
    visits them: the keys the object holds, in the order [order] gives
    them; a key [order] does not list is visited after the listed ones.
    (Ledger ids come from [generateId], a timestamp and a random string
    joined by a hyphen: none is an array index, which would be visited
    first.) *)
Definition forInKeys (order : list string) (allLedgers : gmap string Ledger)
    : list string :=
  filter (λ ledgerId, is_Some (allLedgers !! ledgerId)) (remove_dups order)
  ++ filter (λ ledgerId, ledgerId ∉ order) (map_to_list allLedgers).*1.

(** [allLedgers[ledgerId] = ledger]: a key the object already holds keeps
    its place, a new key goes last. *)
Definition keysAfterSet (order : list string) (allLedgers : gmap string Ledger)
    (ledgerId : string) : list string :=
  if decide (is_Some (allLedgers !! ledgerId)) then order
  else forInKeys order allLedgers ++ [ledgerId].

(** [delete allLedgers[ledgerId]] *)
Definition keysAfterDelete (order : list string) (ledgerId : string) : list string :=
  filter (λ k, k ≠ ledgerId) order.

(** The order in which the stored ledger collection holds its keys. *)
Definition getKeyOrder : Async (list string) :=
  λ w, (Returned (ledgerKeyOrder w), w).

(** [AsyncStorage.setItem(key, JSON.stringify(allLedgers))] for the ledger
    collection of the current identity: the text records the keys in the
    order the object holds them. *)
Definition setLedgers (key : string) (allLedgers : gmap string Ledger)
    (order : list string) : Async unit :=
  λ w, (Returned (),
        setKeyOrder order
          (setAsyncStorage (<[key := Stringified (CLedgers allLedgers)]> (asyncStorage w))
                           w)).

(** [JSON.parse(s)] *)
Definition jsonParse {A} (s : text A) : Async A :=
  match s with
  | Blank | Garbage => throw "SyntaxError"
  | Stringified v => mret v
  end.

(** One Firestore call: it consumes the head of [network]. *)
Definition remote {A} (call : Firestore → A * Firestore) : Async A :=
  λ w,
    match network w with
    | false :: rest => (Thrown "FirebaseError", setRemote (firestore w) rest w)
    | net =>
        let '(a, fs) := call (firestore w) in
        (Returned a, setRemote fs (tail net) w)
    end.

(** A call that is not awaited. *)
Definition spawn (t : Task) : Async unit :=
  λ w, (Returned (), setBackground (background w ++ [t]) w).

Definition setLedgerDoc (uid ledgerId : string) (d : LedgerDoc) : Async unit :=
  remote (λ fs, ((), {| fs_ledgers := <[(uid, ledgerId) := d]> (fs_ledgers fs);
                        fs_transactions := fs_transactions fs;
                        fs_expenses := fs_expenses fs;
                        fs_categories := fs_categories fs |})).

Definition setTransactionDoc (uid ledgerId transactionId : string)
    (d : TransactionDoc) : Async unit :=
  remote (λ fs, ((), {| fs_ledgers := fs_ledgers fs;
                        fs_transactions :=
                          <[(uid, ledgerId, transactionId) := d]> (fs_transactions fs);
                        fs_expenses := fs_expenses fs;
                        fs_categories := fs_categories fs |})).


Definition setCategoriesDoc (uid : string) (d : CategoriesDoc) : Async unit :=
  remote (λ fs, ((), {| fs_ledgers := fs_ledgers fs;
                        fs_transactions := fs_transactions fs;
                        fs_expenses := fs_expenses fs;
                        fs_categories := <[uid := d]> (fs_categories fs) |})).

(** [deleteDoc(doc(db, 'users', uid, 'ledgers', ledgerId))]: the
    transactions subcollection stays. *)
Definition deleteLedgerDoc (uid ledgerId : string) : Async unit :=
  remote (λ fs, ((), {| fs_ledgers := delete (uid, ledgerId) (fs_ledgers fs);
                        fs_transactions := fs_transactions fs;
                        fs_expenses := fs_expenses fs;
                        fs_categories := fs_categories fs |})).

Definition ledgerDocsOf (uid : string) (fs : Firestore) : list (string * LedgerDoc) :=
  omap (λ '((u, ledgerId), d), if decide (u = uid) then Some (ledgerId, d) else None)
       (map_to_list (fs_ledgers fs)).

Definition transactionDocsOf (uid ledgerId : string) (fs : Firestore)
    : list (string * TransactionDoc) :=
  omap (λ '((u, l, transactionId), d),
          if decide (u = uid ∧ l = ledgerId) then Some (transactionId, d) else None)
       (map_to_list (fs_transactions fs)).

(** [getDocs(collection(db, 'users', uid, 'ledgers'))] *)
Definition getLedgerDocs (uid : string) : Async (list (string * LedgerDoc)) :=
  remote (λ fs, (ledgerDocsOf uid fs, fs)).

Definition getTransactionDocs (uid ledgerId : string)
    : Async (list (string * TransactionDoc)) :=
  remote (λ fs, (transactionDocsOf uid ledgerId fs, fs)).

(** ** storage.js *)

Definition ownerOf (user : option string) : string :=
  match user with
  | Some uid => uid
  | None => "guest"
  end.

Definition getLedgersKey : Async string :=
  user ← getUser; mret ("ledgers_" +:+ ownerOf user).


Definition getCategoriesKey : Async string :=
  user ← getUser; mret ("categories_" +:+ ownerOf user).

Definition getSettingsKey : Async string :=
  user ← getUser; mret ("settings_" +:+ ownerOf user).

Definition getAllLedgers : Async (gmap string Ledger) :=
  tryCatch
    (key ← getLedgersKey;
     jsonValue ← getItem key;
     match jsonValue with
     | None => mret ∅
     | Some s => tryCatch (c ← jsonParse s; mret (asLedgers c)) (λ _, mret ∅)
     end)
    (λ _, mret ∅).

Definition getBackupSettings : Async BackupSettings :=
  tryCatch
    (key ← getSettingsKey;
     jsonValue ← getItem key;
     match jsonValue with
     | None => mret defaultSettings
     | Some s =>
         tryCatch (c ← jsonParse s; mret (asSettings c)) (λ _, mret defaultSettings)
     end)
    (λ _, mret {| autoBackup := false; lastSync := None; syncStatus := error |}).



Definition getCategories : Async (list Category) :=
  tryCatch
    (key ← getCategoriesKey;
     jsonValue ← getItem key;
     stored ← match jsonValue with
              | None => mret None
              | Some s =>
                  tryCatch (c ← jsonParse s; mret (Some (asCategories c)))
                           (λ _, mret None)
              end;
     mret (default defaultCategories stored))
    (λ _, mret []).

Fixpoint syncTransactions (uid ledgerId : string) (ts : list Transaction)
    : Async unit :=
  match ts with
  | [] => mret ()
  | transaction :: rest =>
      setTransactionDoc uid ledgerId (tx_id transaction)
        {| d_type := tx_type transaction; d_amount := tx_amount transaction;
           d_date := tx_date transaction;
           d_balanceAfter := tx_balanceAfter transaction |};;
      syncTransactions uid ledgerId rest
  end.

(** Errors are logged and swallowed: the function never throws. *)
Definition syncLedgerToFirebase (ledger : Ledger) : Async unit :=
  tryCatch
    (user ← getUser;
     match user with
     | None => mret ()
     | Some uid =>
         updatedAt ← now;
         setLedgerDoc uid (l_id ledger)
           {| d_name := l_name ledger; d_balance := l_balance ledger;
              d_phone := default "" (l_phone ledger);
              d_address := default "" (l_address ledger);
              d_updatedAt := updatedAt |};;
         syncTransactions uid (l_id ledger) (l_transactions ledger)
     end)
    (λ _, mret ()).

Definition saveLedger (ledger : Ledger) : Async bool :=
  tryCatch
    (key ← getLedgersKey;
     allLedgers ← getAllLedgers;
     order ← getKeyOrder;
     setLedgers key (<[l_id ledger := ledger]> allLedgers)
                (keysAfterSet order allLedgers (l_id ledger));;
     settings ← getBackupSettings;
     (if autoBackup settings then spawn (SyncLedgerTask ledger) else mret ());;
     mret true)
    (λ _, mret false).

Definition deleteTransaction (ledgerId transactionId : string) : Async bool :=
  tryCatch
    (key ← getLedgersKey;
     allLedgers ← getAllLedgers;
     match allLedgers !! ledgerId with
     | None => mret false
     | Some ledger =>
         let updatedLedger := removeTransaction ledger transactionId in
         (* the key [ledgerId] is held already and keeps its place *)
         setItem key (CLedgers (<[ledgerId := updatedLedger]> allLedgers));;
         settings ← getBackupSettings;
         user ← getUser;
         (if bool_decide (is_Some user) && autoBackup settings
          then spawn SyncAllTask else mret ());;
         mret true
     end)
    (λ _, mret false).

Definition deleteLedger (ledgerId : string) : Async bool :=
  tryCatch
    (key ← getLedgersKey;
     allLedgers ← getAllLedgers;
     order ← getKeyOrder;
     setLedgers key (delete ledgerId allLedgers) (keysAfterDelete order ledgerId);;
     settings ← getBackupSettings;
     user ← getUser;
     match user with
     | Some uid =>
         if autoBackup settings then deleteLedgerDoc uid ledgerId else mret ()
     | None => mret ()
     end;;
     mret true)
    (λ _, mret false).

(** [{ id: txnDoc.id, ...txnDoc.data() }] *)
Definition docToTransaction (transactionId : string) (d : TransactionDoc)
    : Transaction :=
  {| tx_id := transactionId; tx_type := d_type d; tx_amount := d_amount d;
     tx_note := None; tx_date := d_date d; tx_displayDate := None;
     tx_billPhoto := None; tx_balanceAfter := d_balanceAfter d |}.

Fixpoint fetchLedgers (uid : string) (docs : list (string * LedgerDoc))
    (allLedgers : gmap string Ledger) : Async (gmap string Ledger) :=
  match docs with
  | [] => mret allLedgers
  | (ledgerId, ledgerData) :: rest =>
      transactionDocs ← getTransactionDocs uid ledgerId;
      let transactions := (λ '(i, d), docToTransaction i d) <$> transactionDocs in
      fetchLedgers uid rest
        (<[ledgerId :=
             {| l_id := ledgerId; l_name := d_name ledgerData;
                l_balance := d_balance ledgerData;
                l_phone := Some (d_phone ledgerData);
                l_address := Some (d_address ledgerData);
                l_transactions := sortByDate transactions |}]> allLedgers)
  end.

(** The [catch] rethrows: failures reach the caller. *)
Definition fetchFromFirebase : Async (gmap string Ledger) :=
  tryCatch
    (user ← getUser;
     match user with
     | None => mret ∅
     | Some uid =>
         docs ← getLedgerDocs uid;
         allLedgers ← fetchLedgers uid docs ∅;
         key ← getLedgersKey;
         setLedgers key allLedgers docs.*1;;
         mret allLedgers
     end)
    (λ e, throw e).

(** [for (const ledgerId in allLedgers)], as the values
    [allLedgers[ledgerId]] in the order of the visit. *)
Definition forIn (order : list string) (allLedgers : gmap string Ledger)
    : list Ledger :=
  omap (λ ledgerId, allLedgers !! ledgerId) (forInKeys order allLedgers).




(** ** backup.js *)

Definition LEDGERS_KEY : string := "ledgers".

Inductive ExportResult :=
  | ExportOk (filePath : string)
  | ExportFail (error : string).

(** Lines 20-42: the object that is written to the backup file.
    [expensesJson ? JSON.parse(expensesJson) : []] parses a text that is
    present and not empty.  The [length] reads of the log lines, which
    throw on a text that parses to [null], are not modelled. *)
Definition backupData : Async json :=
  allLedgers ← getAllLedgers;
  user ← getUser;
  expensesJson ← getItem ("expenses_" +:+ ownerOf user);
  categoriesJson ← getItem ("categories_" +:+ ownerOf user);
  expenses ← match expensesJson with
             | None | Some Blank => mret (JArr [])
             | Some s => c ← jsonParse s; mret (contentToJson c)
             end;
  categories ← match categoriesJson with
               | None | Some Blank => mret (JArr [])
               | Some s => c ← jsonParse s; mret (contentToJson c)
               end;
  exportDate ← now;
  mret (JObj (list_to_map
    [("version", JStr "1.0"); ("exportDate", JNum exportDate);
     ("ledgers", ledgersToJson allLedgers);
     ("expenses", expenses); ("categories", categories)])).

Definition download (fileName : string) (s : text json) : Async unit :=
  λ w, (Returned (), setFiles (files w) (downloads w ++ [(fileName, s)]) w).

Definition writeAsStringAsync (fileUri : string) (s : text json) : Async unit :=
  λ w, (Returned (), setFiles (<[fileUri := s]> (files w)) (downloads w) w).

Definition readAsStringAsync (fileUri : string) : Async (text json) :=
  λ w, match files w !! fileUri with
       | Some s => (Returned s, w)
       | None => (Thrown "file not readable", w)
       end.

(** The share sheet opened after the native write (lines 74-79) is not
    modelled: when it is rejected the file has been written and the
    function returns a failure. *)
Definition exportDataToBackup : Async ExportResult :=
  tryCatch
    (data ← backupData;
     fileName ← (λ w, (Returned ("okcredit_backup_" +:+ today w +:+ ".json"), w));
     os ← getPlatform;
     match os with
     | web => download fileName (Stringified data);; mret (ExportOk "web_download")
     | native =>
         fileUri ← (λ w, (Returned (documentDirectory w +:+ fileName), w));
         writeAsStringAsync fileUri (Stringified data);;
         mret (ExportOk fileUri)
     end)
    (λ e, mret (ExportFail e)).

Inductive ImportResult :=
  | ImportOk (ledgersCount : nat)
  | ImportFail (error : string).

(** What the user does during an import: the [fileUri] argument, the
    answer of the document picker ([None] when cancelled, else the uri of
    the first asset), and on the web the file chosen in the input
    element ([None] when the selection is empty). *)
Record ImportRequest := mkImportRequest {
  fileUri : option string;
  pickerResult : option string;
  webFile : option (text json)
}.

(** Validation, restore and count, shared by the web and the native
    branch (lines 115-125 and 161-171). *)
Definition restoreBackup (data : json) : Async ImportResult :=
  if negb (validateBackupFile data)
  then mret (ImportFail "Invalid backup file format")
  else
    match getField (Some data) "ledgers" with
    | Some (Some ledgers) =>
        setItem LEDGERS_KEY (CJson ledgers);;
        mret (ImportOk (keysLength ledgers))
    | _ => throw "TypeError"
    end.

Definition importDataFromBackup (request : ImportRequest) : Async ImportResult :=
  tryCatch
    (os ← getPlatform;
     match os with
     | web =>
         tryCatch
           (match webFile request with
            | None => mret (ImportFail "No file selected")
            | Some s => data ← jsonParse s; restoreBackup data
            end)
           (λ e, mret (ImportFail e))
     | native =>
         selected ← match fileUri request with
                    | Some uri =>
                        if negb (String.eqb uri "") then mret (Some uri)
                        else mret (pickerResult request)
                    | None => mret (pickerResult request)
                    end;
         match selected with
         | None => mret (ImportFail "Cancelled")
         | Some selectedFileUri =>
             fileContent ← readAsStringAsync selectedFileUri;
             data ← jsonParse fileContent;
             restoreBackup data
         end
     end)
    (λ e, mret (ImportFail e)).

(** ** Vocabulary of the properties *)

(** A mutation of one ledger's transactions: a confirmed add or edit
    form (which saves nothing when the amount is rejected), or the
    deletion of a transaction. *)
Inductive LedgerOp :=
  | OpConfirm (f : ConfirmForm)
  | OpDelete (transactionId : string).

Definition applyOp (ledger : Ledger) (op : LedgerOp) : Ledger :=
  match op with
  | OpConfirm f => default ledger (handleConfirm ledger f)
  | OpDelete transactionId => removeTransaction ledger transactionId
  end.

Definition applyOps (ledger : Ledger) (ops : list LedgerOp) : Ledger :=
  foldl applyOp ledger ops.

(** The sum in which a credit subtracts and a debit adds. *)
Definition creditSubtractsSum (ts : list Transaction) : Z :=
  foldr (fun t acc => match tx_type t with
                      | credit => - tx_amount t
                      | debit => tx_amount t
                      end + acc) 0 ts.

(** What the readers of storage.js observe in a world. *)
Definition ledgersKeyOf (w : World) : string := "ledgers_" +:+ ownerOf (currentUser w).
Definition expensesKeyOf (w : World) : string := "expenses_" +:+ ownerOf (currentUser w).
Definition categoriesKeyOf (w : World) : string :=
  "categories_" +:+ ownerOf (currentUser w).
Definition settingsKeyOf (w : World) : string := "settings_" +:+ ownerOf (currentUser w).

Definition storedLedgers (w : World) : gmap string Ledger :=
  match asyncStorage w !! ledgersKeyOf w with
  | Some (Stringified c) => asLedgers c
  | _ => ∅
  end.

Definition storedSettings (w : World) : BackupSettings :=
  match asyncStorage w !! settingsKeyOf w with
  | Some (Stringified c) => asSettings c
  | _ => defaultSettings
  end.

Definition storedExpenses (w : World) : list Expense :=
  match asyncStorage w !! expensesKeyOf w with
  | Some (Stringified c) => asExpenses c
  | _ => []
  end.

Definition storedCategories (w : World) : list Category :=
  match asyncStorage w !! categoriesKeyOf w with
  | Some (Stringified c) => asCategories c
  | _ => defaultCategories
  end.

(** What [getAllLedgers] lets a caller observe of a ledger: its id, name,
    balance and number of transactions. *)
Definition ledgerSummary (l : Ledger) : string * string * Z * nat :=
  (l_id l, l_name l, l_balance l, length (l_transactions l)).

Definition observedLedgers (w : World) : gmap string (string * string * Z * nat) :=
  ledgerSummary <$> storedLedgers w.

(** The field [k] of [v], [undefined] also where the read would throw. *)
Definition fieldOf (v : json) (k : string) : option json :=
  default None (getField (Some v) k).

(** The condition [validateBackupFile] decides, in terms of truthiness. *)
Definition ledgerAccepted (ledger : json) : Prop :=
  ledger ≠ JNull ∧
  truthy (fieldOf ledger "id") = true ∧
  truthy (fieldOf ledger "name") = true ∧
  typeof (fieldOf ledger "balance") = TyNumber ∧
  (truthy (fieldOf ledger "transactions") = true →
   isArray (fieldOf ledger "transactions") = true).

Definition backupAccepted (data : json) : Prop :=
  truthy (fieldOf data "version") = true ∧
  ∃ ledgers, fieldOf data "ledgers" = Some ledgers ∧
    truthy (Some ledgers) = true ∧
    typeof (Some ledgers) = TyObject ∧
    ∀ ledger, ledger ∈ forInValues ledgers → ledgerAccepted ledger.

(** The condition in terms of the presence of fields. *)
Definition ledgerHasFields (ledger : json) : Prop :=
  is_Some (fieldOf ledger "id") ∧
  is_Some (fieldOf ledger "name") ∧
  typeof (fieldOf ledger "balance") = TyNumber ∧
  (is_Some (fieldOf ledger "transactions") →
   isArray (fieldOf ledger "transactions") = true).

Definition backupHasFields (data : json) : Prop :=
  is_Some (fieldOf data "version") ∧
  ∃ ledgers, fieldOf data "ledgers" = Some ledgers ∧
    typeof (Some ledgers) = TyObject ∧
    ∀ ledger, ledger ∈ forInValues ledgers → ledgerHasFields ledger.

(** The backup text an import hands to [JSON.parse]. *)
Inductive importReads (request : ImportRequest) (w : World) : text json → Prop :=
  | reads_web s :
      platform w = web → webFile request = Some s → importReads request w s
  | reads_argument uri s :
      platform w = native → fileUri request = Some uri → uri ≠ "" →
      files w !! uri = Some s → importReads request w s
  | reads_picked uri s :
      platform w = native → (fileUri request = None ∨ fileUri request = Some "") →
      pickerResult request = Some uri →
      files w !! uri = Some s → importReads request w s.





(** The stored texts have the shapes the application writes: each is
    absent, or rejected by [JSON.parse], or the image of a ledger
    collection, of an expense list, of a category list. *)
Definition ledgersShaped (w : World) : Prop :=
  ∀ c, asyncStorage w !! ledgersKeyOf w = Some (Stringified c) →
       ∃ ledgers, c = CLedgers ledgers.

Definition expensesShaped (w : World) : Prop :=
  ∀ c, asyncStorage w !! expensesKeyOf w = Some (Stringified c) →
       ∃ expenses, c = CExpenses expenses.

Definition categoriesShaped (w : World) : Prop :=
  ∀ c, asyncStorage w !! categoriesKeyOf w = Some (Stringified c) →
       ∃ categories, c = CCategories categories.

(** ** Sample data *)

Definition emptyFirestore : Firestore :=
  {| fs_ledgers := ∅; fs_transactions := ∅; fs_expenses := ∅; fs_categories := ∅ |}.

Definition raviLedger : Ledger :=
  {| l_id := "L1"; l_name := "Ravi"; l_phone := None; l_address := None;
     l_balance := 0; l_transactions := [] |}.

Definition addForm (ty : TxType) (amount date : Z) (newId : string) : ConfirmForm :=
  {| cf_type := ty; cf_editTransaction := None; cf_numAmount := amount;
     cf_note := None; cf_selectedDate := date; cf_date := None;
     cf_billPhoto := None; cf_newId := newId |}.

(** Ravi's ledger after a credit of 100 and a later debit of 30. *)
Definition raviAfterAdds : Ledger :=
  applyOps raviLedger
    [OpConfirm (addForm credit 100 1000 "t1"); OpConfirm (addForm debit 30 2000 "t2")].

Definition guestWorld (storage : gmap string (text content)) : World :=
  {| currentUser := None; asyncStorage := storage; ledgerKeyOrder := [];
     firestore := emptyFirestore;
     network := []; clock := 5000; today := "2024-01-01"; platform := native;
     documentDirectory := "file:///docs/"; files := ∅; downloads := [];
     background := [] |}.

(** A signed-in user with auto-backup off, whose ledger was pushed to
    Firestore by an earlier manual sync. *)
Definition userWorld (net : list bool) : World :=
  {| currentUser := Some "u1";
     asyncStorage := {[ "ledgers_u1" := Stringified (CLedgers {[ "L1" := raviAfterAdds ]}) ]};
     ledgerKeyOrder := ["L1"];
     firestore :=
       {| fs_ledgers := {[ ("u1", "L1") := mkLedgerDoc "Ravi" 70 "" "" 4000 ]};
          fs_transactions := ∅; fs_expenses := ∅; fs_categories := ∅ |};
     network := net; clock := 5000; today := "2024-01-01"; platform := native;
     documentDirectory := "file:///docs/"; files := ∅; downloads := [];
     background := [] |}.



(** A guest's shop with Ravi's ledger in local storage. *)
Definition shopWorld : World :=
  guestWorld {[ "ledgers_guest" := Stringified (CLedgers {[ "L1" := raviAfterAdds ]}) ]}.

(** The same device after its local data was wiped; files are kept. *)
Definition wiped (w : World) : World := setAsyncStorage ∅ w.

(** A backup file without the [ledgers] key, and a device that holds it. *)
Definition backupWithoutLedgers : json :=
  JObj (list_to_map [("version", JStr "1.0"); ("exportDate", JNum 5000)]).

Definition worldWithBadBackup : World :=
  setFiles {[ "file:///docs/bad.json" := Stringified backupWithoutLedgers ]} []
           shopWorld.

Definition importFrom (uri : string) : ImportRequest :=
  {| fileUri := Some uri; pickerResult := None; webFile := None |}.

(** Two worlds with the same signed-in user, local storage and clock. *)
Definition sameLocal (w w' : World) : Prop :=
  currentUser w' = currentUser w ∧
  asyncStorage w' = asyncStorage w ∧
  clock w' = clock w.

(** Two worlds with the same ledger and transaction documents. *)
Definition sameLedgerDocs (w w' : World) : Prop :=
  fs_ledgers (firestore w') = fs_ledgers (firestore w) ∧
  fs_transactions (firestore w') = fs_transactions (firestore w).


(** The signed-in user of [userWorld] with auto-backup switched on. *)
Definition backedUpWorld (net : list bool) : World :=
  setAsyncStorage
    (<["settings_u1" :=
         Stringified (CSettings {| autoBackup := true; lastSync := Some 4000;
                                   syncStatus := idle |})]>
       (asyncStorage (userWorld net)))
    (userWorld net).

(** ** storage.js, the remaining ledger, expense and category functions *)

(** [AsyncStorage.removeItem(key)] *)
Definition removeItem (key : string) : Async unit :=
  λ w, (Returned (), setAsyncStorage (delete key (asyncStorage w)) w).

(** [AsyncStorage.removeItem(key)] for the ledger collection of the
    current identity. *)
Definition removeLedgers (key : string) : Async unit :=
  λ w, (Returned (),
        setKeyOrder [] (setAsyncStorage (delete key (asyncStorage w)) w)).


(** [getDoc(doc(db, 'users', uid, 'settings', 'categories'))]: [None]
    when the snapshot does not exist. *)
Definition getCategoriesDoc (uid : string) : Async (option CategoriesDoc) :=
  remote (λ fs, (fs_categories fs !! uid, fs)).

(** [snapshot.docs.map(doc => deleteDoc(doc.ref))]: every deletion is
    issued, whatever the fate of the others; the result tells whether all
    of them were fulfilled. *)
Fixpoint issueDeletes (uid : string) (ledgerIds : list string) : Async bool :=
  match ledgerIds with
  | [] => mret true
  | ledgerId :: rest =>
      fulfilled ← tryCatch (deleteLedgerDoc uid ledgerId;; mret true)
                           (λ _, mret false);
      others ← issueDeletes uid rest;
      mret (fulfilled && others)
  end.

(** [await Promise.all(deletePromises)] *)
Definition deleteAllLedgerDocs (uid : string) (ledgerIds : list string) : Async unit :=
  allFulfilled ← issueDeletes uid ledgerIds;
  if (allFulfilled : bool) then mret () else throw "FirebaseError".

(** storage.js, [clearAllData] (lines 52-94) *)
Definition clearAllData : Async bool :=
  tryCatch
    (userKey ← getLedgersKey;
     removeLedgers userKey;;
     removeItem "ledgers_guest";;
     user ← getUser;
     match user with
     | Some uid =>
         tryCatch
           (docs ← getLedgerDocs uid;
            deleteAllLedgerDocs uid docs.*1)
           (λ _, mret ())
     | None => mret ()
     end;;
     mret true)
    (λ _, mret false).




Definition saveCategories (categories : list Category) : Async bool :=
  tryCatch
    (key ← getCategoriesKey;
     setItem key (CCategories categories);;
     settings ← getBackupSettings;
     user ← getUser;
     match user with
     | Some uid =>
         if autoBackup settings
         then updatedAt ← now;
              setCategoriesDoc uid
                {| d_list := categories; d_listUpdatedAt := updatedAt |}
         else mret ()
     | None => mret ()
     end;;
     mret true)
    (λ _, mret false).

Definition fetchCategoriesFromFirebase : Async (list Category) :=
  tryCatch
    (user ← getUser;
     match user with
     | None => mret []
     | Some uid =>
         snapshot ← getCategoriesDoc uid;
         match snapshot with
         | Some d =>
             key ← getCategoriesKey;
             setItem key (CCategories (d_list d));;
             mret (d_list d)
         | None => getCategories
         end
     end)
    (λ _, mret []).


(** ** backup.js, [clearAllData] (lines 218-226) *)
Definition backupClearAllData : Async bool :=
  tryCatch (removeItem LEDGERS_KEY;; mret true) (λ _, mret false).

(** ** AddTransactionScreen.js, [handleKeyPress] (lines 79-89)

    [amount] is the state the screen holds; the updater functions see
    the same value, presses being handled one at a time. *)
(** [s.includes(sub)] *)
Definition includes (s sub : string) : bool :=
  match String.index 0 sub s with
  | Some _ => true
  | None => false
  end.

(** [s.slice(0, -1)] *)
Definition dropLast (s : string) : string :=
  String.substring 0 (String.length s - 1) s.

Definition handleKeyPress (amount val : string) : string :=
  if String.eqb val "back" then
    if (1 <? String.length amount)%nat then dropLast amount else "0"
  else if String.eqb val "." then
    if negb (includes amount ".") then amount +:+ "." else amount
  else if bool_decide (val ∈ ["+"; "-"; "*"; "/"]) then amount +:+ val
  else if String.eqb amount "0" then val else amount +:+ val.

(** The values the keypad and the keyboard handler pass to
    [handleKeyPress]. *)
Definition keypad : list string :=
  ["0"; "1"; "2"; "3"; "4"; "5"; "6"; "7"; "8"; "9"; "."; "back"; "+"; "-"; "*"].

(** The character of the decimal point. *)
Definition dot : Ascii.ascii := Ascii.ascii_of_nat 46.

(** The number of decimal points in a string. *)
Fixpoint countDots (s : string) : nat :=
  match s with
  | EmptyString => 0%nat
  | String c rest => ((if Ascii.eqb c dot then 1 else 0) + countDots rest)%nat
  end.

(** ** The dashboard: when [loadData] starts an unattended sync
    (lines 1037-1061 of the dashboard screen) *)





(** ** More vocabulary *)

(** No Firestore call that is still to come fails. *)
Definition online (w : World) : Prop := Forall (λ fate, fate = true) (network w).

(** The ids of the ledger documents Firestore holds for a user. *)
Definition remoteLedgerIds (uid : string) (fs : Firestore) : list string :=
  (ledgerDocsOf uid fs).*1.

Definition corruptWorld : World :=
  guestWorld {[ "ledgers_guest" := Garbage ]}.

(** The ledger [fetchFromFirebase] builds from the ledger document
    [ledgerData] found under [ledgerId] (lines 250-272). *)
Definition fetchedLedger (uid : string) (fs : Firestore) (ledgerId : string)
    (ledgerData : LedgerDoc) : Ledger :=
  {| l_id := ledgerId; l_name := d_name ledgerData;
     l_phone := Some (d_phone ledgerData);
     l_address := Some (d_address ledgerData);
     l_balance := d_balance ledgerData;
     l_transactions :=
       sortByDate ((λ '(i, d), docToTransaction i d)
                     <$> transactionDocsOf uid ledgerId fs) |}.

(** One turn of the loop over the ledger documents. *)
Definition fetchStep (uid : string) (fs : Firestore)
    (allLedgers : gmap string Ledger) (doc : string * LedgerDoc)
    : gmap string Ledger :=
  <[doc.1 := fetchedLedger uid fs doc.1 doc.2]> allLedgers.

(** A signed-in user whose local ledgers were never pushed: Firestore
    holds nothing for the user. *)
Definition unsyncedWorld (net : list bool) : World :=
  {| currentUser := Some "u1";
     asyncStorage := {[ "ledgers_u1" := Stringified (CLedgers {[ "L1" := raviAfterAdds ]}) ]};
     ledgerKeyOrder := ["L1"];
     firestore := emptyFirestore;
     network := net; clock := 5000; today := "2024-01-01"; platform := native;
     documentDirectory := "file:///docs/"; files := ∅; downloads := [];
     background := [] |}.

(** The document [syncLedgerToFirebase] writes for a transaction, and the
    transaction [fetchFromFirebase] builds back from it: the note, the
    display date and the bill photo are not part of the document. *)
Definition transactionDocOf (t : Transaction) : TransactionDoc :=
  {| d_type := tx_type t; d_amount := tx_amount t; d_date := tx_date t;
     d_balanceAfter := tx_balanceAfter t |}.

Definition cloudCopy (t : Transaction) : Transaction :=
  docToTransaction (tx_id t) (transactionDocOf t).

(** The transaction documents after the loop of [syncLedgerToFirebase]. *)
Definition pushTransaction (uid ledgerId : string)
    (docs : gmap (string * string * string) TransactionDoc) (t : Transaction)
    : gmap (string * string * string) TransactionDoc :=
  <[(uid, ledgerId, tx_id t) := transactionDocOf t]> docs.

(** The pair of id and document pushed for a transaction. *)
Definition pushedPair (t : Transaction) : string * TransactionDoc :=
  (tx_id t, transactionDocOf t).




(** What [xJson ? JSON.parse(xJson) : []] evaluates to when the stored
    text parses or is absent. *)
Definition parsedOrEmpty (stored : option (text content)) : json :=
  match stored with
  | Some (Stringified c) => contentToJson c
  | _ => JArr []
  end.

(** The backup object an export builds from a world whose expenses and
    categories texts parse. *)
Definition exportedData (w : World) : json :=
  JObj (list_to_map
    [("version", JStr "1.0"); ("exportDate", JNum (clock w));
     ("ledgers", ledgersToJson (storedLedgers w));
     ("expenses", parsedOrEmpty (asyncStorage w !! expensesKeyOf w));
     ("categories", parsedOrEmpty (asyncStorage w !! categoriesKeyOf w))]).

(** The expenses or the categories text does not parse. *)
Definition sideDataCorrupt (w : World) : Prop :=
  asyncStorage w !! expensesKeyOf w = Some Garbage ∨
  asyncStorage w !! categoriesKeyOf w = Some Garbage.

(** The path of the file a native export writes. *)
Definition exportPath (w : World) : string :=
  documentDirectory w +:+ ("okcredit_backup_" +:+ today w +:+ ".json").

(** A guest's shop whose expenses text is corrupt. *)
Definition corruptExpensesWorld : World :=
  guestWorld {[ "ledgers_guest" := Stringified (CLedgers {[ "L1" := raviAfterAdds ]});
                "expenses_guest" := Garbage ]}.

(** A guest's shop whose expenses text is the empty string. *)
Definition blankExpensesWorld : World :=
  guestWorld {[ "ledgers_guest" := Stringified (CLedgers {[ "L1" := raviAfterAdds ]});
                "expenses_guest" := Blank ]}.

(** The request by which the backup an export has just produced is
    handed to an import: its path on a device, and in a browser the file
    that was downloaded last. *)
Definition reimport (w1 : World) (path : string) : ImportRequest :=
  {| fileUri := Some path; pickerResult := None;
     webFile := snd <$> last (downloads w1) |}.


(** A valid backup file with one ledger, and a fresh device that holds it. *)
Definition goodBackup : json :=
  JObj (list_to_map
    [("version", JStr "1.0");
     ("ledgers", JObj {[ "L1" := ledgerToJson raviAfterAdds ]})]).

Definition worldWithGoodBackup : World :=
  setFiles {[ "file:///docs/good.json" := Stringified goodBackup ]} [] (guestWorld ∅).
(** * Properties *)

(** ** Sorting by date *)

Lemma insertByDate_perm t l : insertByDate t l ≡ₚ t :: l.
Proof.
  induction l as [|x r IH]; simpl; [done|].
  destruct (tx_date t <=? tx_date x); [done|].
  rewrite IH. apply perm_swap.
Qed.

Lemma sortByDate_perm l : sortByDate l ≡ₚ l.
Proof.
  induction l as [|t l IH]; simpl; [done|].
  rewrite insertByDate_perm. by f_equiv.
Qed.

Lemma insertByDate_sorted t l :
  StronglySorted dateLe l → StronglySorted dateLe (insertByDate t l).
Proof.
  induction 1 as [|x r Hr IH Hx]; simpl.
  - repeat constructor.
  - destruct (Z.leb_spec (tx_date t) (tx_date x)) as [Hle|Hlt].
    + constructor; [by constructor|].
      constructor; [exact Hle|].
      eapply Forall_impl; [exact Hx|].
      unfold dateLe; intros; lia.
    + constructor; [exact IH|].
      rewrite insertByDate_perm. constructor; [|exact Hx].
      unfold dateLe; lia.
Qed.

Lemma sortByDate_sorted l : StronglySorted dateLe (sortByDate l).
Proof.
  induction l as [|t l IH]; simpl; [constructor|].
  by apply insertByDate_sorted.
Qed.

Lemma sortByDate_length l : length (sortByDate l) = length l.
Proof. apply Permutation_length, sortByDate_perm. Qed.

(** ** Signed sums *)

Arguments signedSum : simpl never.
Arguments cumulativeThrough : simpl never.

Lemma signedSum_cons t ts : signedSum (t :: ts) = signedAmount t + signedSum ts.
Proof. reflexivity. Qed.

Lemma signedSum_perm ts ts' : ts ≡ₚ ts' → signedSum ts = signedSum ts'.
Proof.
  induction 1 as [|x l l' _ IH|x y l|l l' l'' _ IH1 _ IH2];
    rewrite ?signedSum_cons; try lia; congruence.
Qed.

Lemma calculateBalance_signed b t :
  calculateBalance b (tx_type t) (tx_amount t) = b + signedAmount t.
Proof. unfold calculateBalance, signedAmount. destruct (tx_type t); lia. Qed.

Lemma cumulativeThrough_cons t ts i :
  cumulativeThrough (t :: ts) (S i) = signedAmount t + cumulativeThrough ts i.
Proof. reflexivity. Qed.

(** ** The walk of [handleConfirm] *)

Lemma recalculate_spec ts : ∀ acc,
  (recalculate acc ts).2 = acc + signedSum ts ∧
  length (recalculate acc ts).1 = length ts ∧
  ∀ i t, ts !! i = Some t →
    (recalculate acc ts).1 !! i
    = Some (withBalanceAfter t (acc + cumulativeThrough ts i)).
Proof.
  induction ts as [|t ts IH]; intros acc; simpl.
  - split; [unfold signedSum; simpl; lia|]. split; [done|].
    intros i t Hi. by rewrite lookup_nil in Hi.
  - set (acc' := match tx_type t with
                 | credit => acc + tx_amount t
                 | debit => acc - tx_amount t
                 end).
    assert (Hacc : acc' = acc + signedAmount t).
    { unfold acc', signedAmount. destruct (tx_type t); lia. }
    destruct (IH acc') as (Hfin & Hlen & Hnth).
    destruct (recalculate acc' ts) as [rest' final] eqn:Hrec. simpl in *.
    split; [rewrite signedSum_cons; lia|].
    split; [by rewrite Hlen|].
    intros [|i] t0 Hi; simpl in *.
    + inversion Hi; subst t0. f_equal. f_equal.
      unfold cumulativeThrough. rewrite firstn_cons, take_0, signedSum_cons.
      unfold signedSum; simpl. lia.
    + rewrite (Hnth i t0 Hi). f_equal. f_equal.
      rewrite cumulativeThrough_cons. lia.
Qed.

Lemma recomputeLedger_transactions ledger updated :
  l_transactions (recomputeLedger ledger updated)
  = (recalculate 0 (sortByDate updated)).1.
Proof.
  unfold recomputeLedger. by destruct (recalculate 0 (sortByDate updated)).
Qed.

Lemma recomputeLedger_balance ledger updated :
  l_balance (recomputeLedger ledger updated)
  = (recalculate 0 (sortByDate updated)).2.
Proof.
  unfold recomputeLedger. by destruct (recalculate 0 (sortByDate updated)).
Qed.

Lemma signedAmount_withBalanceAfter t b :
  signedAmount (withBalanceAfter t b) = signedAmount t.
Proof. reflexivity. Qed.

Lemma recalculate_signedSum ts : ∀ acc,
  signedSum (recalculate acc ts).1 = signedSum ts.
Proof.
  induction ts as [|t ts IH]; intros acc; simpl; [done|].
  specialize (IH (match tx_type t with
                  | credit => acc + tx_amount t
                  | debit => acc - tx_amount t
                  end)).
  destruct (recalculate _ ts) as [rest' final]; simpl in *.
  rewrite !signedSum_cons, IH. reflexivity.
Qed.

(** After an accepted add or edit the balance is the signed sum of the
    ledger's transactions. *)
Lemma recomputeLedger_balance_signedSum ledger updated :
  l_balance (recomputeLedger ledger updated)
  = signedSum (l_transactions (recomputeLedger ledger updated)).
Proof.
  rewrite recomputeLedger_balance, recomputeLedger_transactions.
  rewrite recalculate_signedSum.
  destruct (recalculate_spec (sortByDate updated) 0) as (-> & _). lia.
Qed.

(** ** The balance of the delete path *)

Lemma deleteBalance_from ts : ∀ acc,
  fold_left (fun newBalance t =>
               match tx_type t with
               | credit => newBalance - tx_amount t
               | debit => newBalance + tx_amount t
               end) ts acc
  = acc + creditSubtractsSum ts.
Proof.
  induction ts as [|t ts IH]; intros acc; simpl; [lia|].
  rewrite IH. destruct (tx_type t); lia.
Qed.

Lemma creditSubtractsSum_cons t ts :
  creditSubtractsSum (t :: ts)
  = match tx_type t with
    | credit => - tx_amount t
    | debit => tx_amount t
    end + creditSubtractsSum ts.
Proof. reflexivity. Qed.

Lemma deleteBalance_creditSubtracts ts : deleteBalance ts = creditSubtractsSum ts.
Proof. unfold deleteBalance. rewrite deleteBalance_from. lia. Qed.

Lemma creditSubtractsSum_neg ts : creditSubtractsSum ts = - signedSum ts.
Proof.
  induction ts as [|t ts IH]; [done|].
  rewrite creditSubtractsSum_cons, signedSum_cons, IH.
  unfold signedAmount. destruct (tx_type t); lia.
Qed.


(** ** The readers of storage.js *)

Ltac unfold_async :=
  unfold tryCatch, mbind, mret, Async_bind, Async_ret, getUser, now, getItem,
    setItem, jsonParse, throw, spawn, getPlatform in *.

Lemma getAllLedgers_reads w : getAllLedgers w = (Returned (storedLedgers w), w).
Proof.
  unfold getAllLedgers, getLedgersKey, storedLedgers, ledgersKeyOf.
  unfold_async; simpl.
  destruct (asyncStorage w !! _) as [[| |c]|]; reflexivity.
Qed.

Lemma getBackupSettings_reads w :
  getBackupSettings w = (Returned (storedSettings w), w).
Proof.
  unfold getBackupSettings, getSettingsKey, storedSettings, settingsKeyOf.
  unfold_async; simpl.
  destruct (asyncStorage w !! _) as [[| |c]|]; reflexivity.
Qed.


Lemma getCategories_reads w :
  getCategories w = (Returned (storedCategories w), w).
Proof.
  unfold getCategories, getCategoriesKey, storedCategories, categoriesKeyOf.
  unfold_async; simpl.
  destruct (asyncStorage w !! _) as [[| |c]|]; reflexivity.
Qed.


Lemma storedSettings_setLedgers w c :
  storedSettings (setAsyncStorage (<[ledgersKeyOf w := c]> (asyncStorage w)) w)
  = storedSettings w.
Proof.
  unfold storedSettings, settingsKeyOf, ledgersKeyOf; simpl.
  by rewrite lookup_insert_ne.
Qed.

Lemma storedSettings_setKeyOrder order w :
  storedSettings (setKeyOrder order w) = storedSettings w.
Proof. reflexivity. Qed.

Lemma storedLedgers_setKeyOrder order w :
  storedLedgers (setKeyOrder order w) = storedLedgers w.
Proof. reflexivity. Qed.

Lemma storedLedgers_setLedgers w m :
  storedLedgers
    (setAsyncStorage (<[ledgersKeyOf w := Stringified (CLedgers m)]> (asyncStorage w)) w)
  = m.
Proof.
  unfold storedLedgers, ledgersKeyOf; simpl. by rewrite lookup_insert_eq.
Qed.

(** ** Adding and editing transactions *)



(** An accepted add or edit leaves the balance equal to the signed sum of
    the stored transactions, and every [balanceAfter] equal to the
    cumulative signed sum of the date-ordered list. *)
Lemma handleConfirm_balance_signedSum ledger f ledger' :
  handleConfirm ledger f = Some ledger' →
  l_balance ledger' = signedSum (l_transactions ledger').
Proof.
  unfold handleConfirm. destruct (cf_numAmount f <=? 0); [done|].
  intros [= <-]. apply recomputeLedger_balance_signedSum.
Qed.

(** ** Deleting a transaction *)

(** C1. Evaluation of the code on the sequence: add a credit of 100, add a
    debit of 30, delete the debit.  The remaining transaction is the
    credit of 100, whose signed sum is 100, and the stored balance is
    -100. *)
Theorem delete_leaves_negated_balance :
  let ledger := applyOps raviLedger
    [OpConfirm (addForm credit 100 1000 "t1");
     OpConfirm (addForm debit 30 2000 "t2");
     OpDelete "t2"] in
  tx_id <$> l_transactions ledger = ["t1"] ∧
  signedSum (l_transactions ledger) = 100 ∧
  l_balance ledger = -100.
Proof. by vm_compute. Qed.

(** C2. Evaluation of the code on the sequence: add a credit of 100, add a
    later debit of 30, delete the credit.  The debit keeps the
    [balanceAfter] 70 it had before the deletion, while the cumulative
    signed sum through its index is -30. *)
Theorem delete_keeps_stale_balanceAfter :
  let ledger := applyOps raviLedger
    [OpConfirm (addForm credit 100 1000 "t1");
     OpConfirm (addForm debit 30 2000 "t2");
     OpDelete "t1"] in
  sortByDate (l_transactions ledger) = l_transactions ledger ∧
  tx_balanceAfter <$> l_transactions ledger = [Some 70] ∧
  cumulativeThrough (sortByDate (l_transactions ledger)) 0 = -30.
Proof. by vm_compute. Qed.





(** ** Validation of backup files *)

Arguments truthy : simpl never.
Arguments typeof : simpl never.
Arguments isArray : simpl never.

Lemma validateLedger_accepts ledger :
  validateLedger ledger = Some true ↔ ledgerAccepted ledger.
Proof.
  unfold validateLedger, ledgerAccepted, fieldOf.
  destruct ledger as [| | | | |fields]; simpl;
    try change (truthy None) with false; simpl;
    try (split; [discriminate | intros (? & ? & _); congruence]).
  destruct (truthy (fields !! "id")); simpl;
    [|split; [discriminate | intros (_ & ? & _); congruence]].
  destruct (truthy (fields !! "name")); simpl;
    [|split; [discriminate | intros (_ & _ & ? & _); congruence]].
  case_bool_decide as Hbal; simpl;
    [split; [discriminate | intros (_ & _ & _ & ? & _); congruence]|].
  try apply dec_stable in Hbal.
  destruct (truthy (fields !! "transactions")); simpl.
  - destruct (isArray (fields !! "transactions")); simpl.
    + by repeat split.
    + split; [discriminate|]. intros (_ & _ & _ & _ & Harr). by specialize (Harr eq_refl).
  - by repeat split.
Qed.

Lemma validateLedgers_accepts ledgers :
  validateLedgers ledgers = Some true ↔ ∀ ledger, ledger ∈ ledgers → ledgerAccepted ledger.
Proof.
  induction ledgers as [|ledger rest IH]; simpl.
  - split; [|done]. intros _ ledger Hin. by apply elem_of_nil in Hin.
  - destruct (validateLedger ledger) as [[|]|] eqn:Hone; simpl.
    + rewrite IH. split.
      * intros Hrest l [->|Hin]%elem_of_cons; [by apply validateLedger_accepts|auto].
      * intros Hall l Hin. apply Hall. by right.
    + split; [discriminate|]. intros Hall.
      assert (validateLedger ledger = Some true) as Hok
        by (apply validateLedger_accepts, Hall; by left).
      congruence.
    + split; [discriminate|]. intros Hall.
      assert (validateLedger ledger = Some true) as Hok
        by (apply validateLedger_accepts, Hall; by left).
      congruence.
Qed.

Lemma validateBody_accepts data :
  validateBody data = Some true ↔ backupAccepted data.
Proof.
  unfold validateBody, backupAccepted, fieldOf.
  destruct data as [| | | | |fields]; simpl;
    try change (truthy None) with false; simpl;
    try (split; [discriminate | intros [? _]; congruence]).
  destruct (truthy (fields !! "version")); simpl;
    [|split; [discriminate | intros [? _]; congruence]].
  destruct (fields !! "ledgers") as [ledgers|]; simpl;
    [|split; [discriminate | intros (_ & ? & ? & _); congruence]].
  destruct (truthy (Some ledgers)) eqn:Htruthy; simpl;
    [|split; [discriminate | intros (_ & ? & [= <-] & ? & _); congruence]].
  case_bool_decide as Hty; simpl.
  - split; [discriminate|]. intros (_ & ? & [= <-] & _ & ? & _). congruence.
  - try apply dec_stable in Hty. rewrite validateLedgers_accepts. split.
    + intros Hall. split; [done|]. by exists ledgers.
    + intros (_ & ? & [= <-] & _ & _ & Hall). exact Hall.
Qed.

(** C6, as amended.  [validateBackupFile] returns true exactly when
    [version] and [ledgers] are truthy, [ledgers] is of object type, and
    every ledger in it is not null, has a truthy [id], a truthy [name], a
    [balance] of number type and a [transactions] field that is falsy
    (absent, null, false, 0 or the empty string) or an array. *)
Theorem validateBackupFile_accepts (data : json) :
  validateBackupFile data = true ↔ backupAccepted data.
Proof.
  rewrite <- validateBody_accepts. unfold validateBackupFile.
  destruct (validateBody data) as [[|]|]; simpl; split; congruence.
Qed.

(** C6, as stated, fails: a backup whose only ledger has an id, a name, a
    numeric balance and a [transactions] field that is present and holds
    [false] (not an array) is accepted. *)
Lemma validateBackupFile_not_presence :
  ¬ ∀ data, validateBackupFile data = true ↔ backupHasFields data.
Proof.
  intros Hclaim.
  pose (ledger := JObj (list_to_map
          [("id", JStr "L1"); ("name", JStr "Ravi"); ("balance", JNum 0);
           ("transactions", JBool false)])).
  pose (data := JObj (list_to_map
          [("version", JStr "1.0"); ("ledgers", JObj {[ "L1" := ledger ]})])).
  destruct (Hclaim data) as [Hto _].
  destruct (Hto eq_refl) as (_ & ledgers & Hledgers & _ & Hall).
  vm_compute in Hledgers. injection Hledgers as <-.
  destruct (Hall ledger) as (_ & _ & _ & Harr).
  { vm_compute. left. }
  assert (is_Some (fieldOf ledger "transactions")) as Hsome
    by (exists (JBool false); by vm_compute).
  specialize (Harr Hsome). vm_compute in Harr. discriminate.
Qed.

(** ** Importing a backup *)

Lemma restoreBackup_invalid data w :
  validateBackupFile data = false →
  restoreBackup data w = (Returned (ImportFail "Invalid backup file format"), w).
Proof. intros Hinvalid. unfold restoreBackup. by rewrite Hinvalid. Qed.

Lemma validateBackupFile_missing_ledgers data :
  fieldOf data "ledgers" = None → validateBackupFile data = false.
Proof.
  intros Hmissing.
  destruct (validateBackupFile data) eqn:Hvalid; [|done].
  unfold validateBackupFile in Hvalid.
  destruct (validateBody data) as [[|]|] eqn:Hbody; try done.
  apply validateBody_accepts in Hbody as (_ & ledgers & Hsome & _). congruence.
Qed.

(** C7. When the backup text an import reads parses to data that fails
    validation (in particular data without a [ledgers] field),
    [validateBackupFile] returns false and the import returns the failure
    "Invalid backup file format" in an unchanged world: nothing is
    written to local storage. *)
Theorem importDataFromBackup_rejects_invalid
    (request : ImportRequest) (w : World) (data : json) :
  importReads request w (Stringified data) →
  validateBackupFile data = false ∨ fieldOf data "ledgers" = None →
  validateBackupFile data = false ∧
  importDataFromBackup request w
  = (Returned (ImportFail "Invalid backup file format"), w).
Proof.
  intros Hreads Hbad.
  assert (validateBackupFile data = false) as Hinvalid.
  { destruct Hbad as [?|?]; [done|by apply validateBackupFile_missing_ledgers]. }
  split; [exact Hinvalid|].
  unfold importDataFromBackup, readAsStringAsync. unfold_async.
  inversion Hreads as [s Hos Hfile|uri s Hos Huri Hne Hfile|uri s Hos Huri Hpick Hfile];
    subst; rewrite Hos; simpl.
  - rewrite Hfile. simpl. by rewrite restoreBackup_invalid.
  - rewrite Huri. apply String.eqb_neq in Hne. rewrite Hne. simpl.
    rewrite Hfile. simpl. by rewrite restoreBackup_invalid.
  - destruct Huri as [->| ->]; simpl; rewrite Hpick, Hfile; simpl;
      by rewrite restoreBackup_invalid.
Qed.

Lemma importDataFromBackup_rejects_invalid_witness :
  importReads (importFrom "file:///docs/bad.json") worldWithBadBackup
              (Stringified backupWithoutLedgers) ∧
  fieldOf backupWithoutLedgers "ledgers" = None ∧
  asyncStorage
    (importDataFromBackup (importFrom "file:///docs/bad.json") worldWithBadBackup).2
  = asyncStorage worldWithBadBackup.
Proof.
  assert (importReads (importFrom "file:///docs/bad.json") worldWithBadBackup
                      (Stringified backupWithoutLedgers)) as Hreads.
  { eapply reads_argument; [reflexivity|reflexivity|discriminate|by vm_compute]. }
  split; [exact Hreads|]. split; [by vm_compute|].
  destruct (importDataFromBackup_rejects_invalid _ _ _ Hreads
              (or_intror (eq_refl : fieldOf backupWithoutLedgers "ledgers" = None)))
    as [_ ->].
  reflexivity.
Defined.

(** An import never touches what [getAllLedgers] reads: it writes under
    the key [ledgers], and the readers use [ledgers_<uid>] or
    [ledgers_guest]. *)
Lemma restoreBackup_keeps_ledgers data w r w' :
  restoreBackup data w = (r, w') → storedLedgers w' = storedLedgers w.
Proof.
  unfold restoreBackup. unfold_async.
  destruct (negb (validateBackupFile data)); [by intros [= _ <-]|].
  destruct (getField (Some data) "ledgers") as [[ledgers|]|];
    try (by intros [= _ <-]).
  simpl. intros [= _ <-].
  unfold storedLedgers, ledgersKeyOf, LEDGERS_KEY; simpl.
  by rewrite lookup_insert_ne.
Qed.

Lemma importDataFromBackup_keeps_ledgers request w r w' :
  importDataFromBackup request w = (r, w') → storedLedgers w' = storedLedgers w.
Proof.
  unfold importDataFromBackup, readAsStringAsync. unfold_async.
  destruct (platform w); simpl.
  - destruct (webFile request) as [[| |data]|]; simpl; try (by intros [= _ <-]).
    destruct (restoreBackup data w) as [[res|e] w1] eqn:Hrestore;
      intros [= _ <-]; by eapply restoreBackup_keeps_ledgers.
  - set (selected := match fileUri request with
                     | Some uri => _
                     | None => _
                     end).
    assert (∃ o, selected w = (Returned o, w)) as [o ->].
    { unfold selected. destruct (fileUri request) as [uri|]; [|by eexists].
      destruct (negb (String.eqb uri "")); by eexists. }
    destruct o as [uri|]; [|by intros [= _ <-]].
    destruct (files w !! uri) as [[| |data]|]; simpl; try (by intros [= _ <-]).
    destruct (restoreBackup data w) as [[res|e] w1] eqn:Hrestore;
      intros [= _ <-]; by eapply restoreBackup_keeps_ledgers.
Qed.

(** For the same reason an import brings nothing back on a device whose
    local data was wiped after the export: it reports one restored
    ledger, stores it under the key [ledgers], and [getAllLedgers] still
    returns the empty collection. *)
Lemma import_after_wipe_restores_nothing :
  ∃ path w1 w2,
    observedLedgers shopWorld = {[ "L1" := ("L1", "Ravi", 70, 2%nat) ]} ∧
    exportDataToBackup shopWorld = (Returned (ExportOk path), w1) ∧
    importDataFromBackup (importFrom path) (wiped w1) = (Returned (ImportOk 1), w2) ∧
    is_Some (asyncStorage w2 !! "ledgers") ∧
    getAllLedgers w2 = (Returned ∅, w2) ∧
    observedLedgers w2 = ∅.
Proof.
  eexists _, _, _.
  split; [by vm_compute|].
  split; [by vm_compute|].
  split; [by vm_compute|].
  split; [eexists; by vm_compute|].
  split; [rewrite getAllLedgers_reads; by vm_compute|by vm_compute].
Qed.

(** ** Running asynchronous code *)

Lemma bind_returned {A B} (m : Async A) (f : A → Async B) w a w' :
  m w = (Returned a, w') → (m ≫= f) w = f a w'.
Proof. intros H. unfold mbind, Async_bind. by rewrite H. Qed.

Lemma bind_thrown {A B} (m : Async A) (f : A → Async B) w e w' :
  m w = (Thrown e, w') → (m ≫= f) w = (Thrown e, w').
Proof. intros H. unfold mbind, Async_bind. by rewrite H. Qed.

Lemma tryCatch_returned {A} (m : Async A) h w a w' :
  m w = (Returned a, w') → tryCatch m h w = (Returned a, w').
Proof. intros H. unfold tryCatch. by rewrite H. Qed.

Lemma tryCatch_thrown {A} (m : Async A) h w e w' :
  m w = (Thrown e, w') → tryCatch m h w = h e w'.
Proof. intros H. unfold tryCatch. by rewrite H. Qed.

Lemma sameLocal_refl w : sameLocal w w.
Proof. by repeat split. Qed.

Lemma sameLocal_trans w1 w2 w3 : sameLocal w1 w2 → sameLocal w2 w3 → sameLocal w1 w3.
Proof. unfold sameLocal. intros (? & ? & ?) (? & ? & ?). repeat split; congruence. Qed.

Lemma sameLocal_storedLedgers w w' : sameLocal w w' → storedLedgers w' = storedLedgers w.
Proof. intros (Hu & Hs & _). unfold storedLedgers, ledgersKeyOf. by rewrite Hu, Hs. Qed.



Lemma sameLedgerDocs_refl w : sameLedgerDocs w w.
Proof. by split. Qed.


(** A Firestore call throws exactly when the head of [network] is
    [false]; either way it consumes that head and leaves the local part of
    the world alone. *)
Lemma remote_fails {A} (call : Firestore → A * Firestore) w rest :
  network w = false :: rest →
  remote call w = (Thrown "FirebaseError", setRemote (firestore w) rest w).
Proof. intros H. unfold remote. by rewrite H. Qed.

Lemma remote_succeeds {A} (call : Firestore → A * Firestore) w :
  head (network w) ≠ Some false →
  remote call w
  = (Returned (call (firestore w)).1,
     setRemote (call (firestore w)).2 (tail (network w)) w).
Proof.
  intros H. unfold remote.
  destruct (network w) as [|[|] rest]; simpl in *; try done;
    by destruct (call (firestore w)).
Qed.

Lemma remote_sameLocal {A} (call : Firestore → A * Firestore) w r w' :
  remote call w = (r, w') → sameLocal w w'.
Proof.
  unfold remote. destruct (network w) as [|[|] rest];
    destruct (call (firestore w)); intros [= _ <-]; by repeat split.
Qed.

(** ** Pushing ledgers: failures are swallowed *)

Lemma syncTransactions_sameLocal uid ledgerId ts : ∀ w r w',
  syncTransactions uid ledgerId ts w = (r, w') → sameLocal w w'.
Proof.
  induction ts as [|t ts IH]; intros w r w'; simpl.
  - intros [= _ <-]. apply sameLocal_refl.
  - unfold mbind, Async_bind.
    destruct (setTransactionDoc _ _ _ _ w) as [[[]|e] w1] eqn:Hset;
      apply remote_sameLocal in Hset.
    + intros Hrest. eapply sameLocal_trans; [exact Hset|]. by eapply IH.
    + by intros [= _ <-].
Qed.

Lemma syncLedgerToFirebase_returns ledger w :
  ∃ w', syncLedgerToFirebase ledger w = (Returned (), w') ∧ sameLocal w w'.
Proof.
  unfold syncLedgerToFirebase, tryCatch, getUser, now.
  unfold mbind at 1, Async_bind at 1.
  destruct (currentUser w) as [uid|].
  2: { eexists; split; [reflexivity|apply sameLocal_refl]. }
  unfold mbind at 1, Async_bind at 1.
  unfold mbind, Async_bind.
  destruct (setLedgerDoc _ _ _ w) as [[[]|e] w1] eqn:Hset;
    apply remote_sameLocal in Hset.
  - destruct (syncTransactions _ _ _ w1) as [[[]|e] w2] eqn:Htx;
      apply syncTransactions_sameLocal in Htx;
      (eexists; split; [reflexivity|by eapply sameLocal_trans]).
  - eexists; split; [reflexivity|done].
Qed.



(** ** Pushing expenses and categories: failures propagate *)


Lemma elem_of_take_cons_true (n : nat) (net : list bool) :
  false ∈ take (S n) (true :: net) ↔ false ∈ take n net.
Proof.
  rewrite firstn_cons, elem_of_cons. split; [by intros [?|?]|by right].
Qed.



Ltac step H := rewrite (bind_returned _ _ _ _ _ H); cbv beta.

(** ** [syncAllToFirebase] *)



(** The ledger loop follows the order of insertion: two ledgers saved
    [B] first and [A] second are pushed in that order, and a ledger that
    is saved again keeps its place. *)
Lemma saveLedger_keeps_insertion_order :
  let ledgerA := {| l_id := "A"; l_name := "Asha"; l_phone := None;
                    l_address := None; l_balance := 0; l_transactions := [] |} in
  let ledgerB := {| l_id := "B"; l_name := "Bina"; l_phone := None;
                    l_address := None; l_balance := 0; l_transactions := [] |} in
  let w := (saveLedger ledgerB (saveLedger ledgerA (saveLedger ledgerB
              (guestWorld ∅)).2).2).2 in
  l_id <$> forIn (ledgerKeyOrder w) (storedLedgers w) = ["B"; "A"].
Proof. by vm_compute. Qed.




(** ** Deleting a ledger and pulling from Firestore *)

Lemma deleteLedger_run ledgerId w :
  let w0 :=
    setKeyOrder (keysAfterDelete (ledgerKeyOrder w) ledgerId)
      (setAsyncStorage
         (<[ledgersKeyOf w := Stringified (CLedgers (delete ledgerId (storedLedgers w)))]>
            (asyncStorage w)) w) in
  deleteLedger ledgerId w
  = match currentUser w with
    | Some uid =>
        if autoBackup (storedSettings w)
        then match deleteLedgerDoc uid ledgerId w0 with
             | (Returned _, w1) => (Returned true, w1)
             | (Thrown _, w1) => (Returned false, w1)
             end
        else (Returned true, w0)
    | None => (Returned true, w0)
    end.
Proof.
  cbv zeta. unfold deleteLedger, getLedgersKey. unfold_async; simpl.
  rewrite getAllLedgers_reads. fold (ledgersKeyOf w).
  rewrite getBackupSettings_reads, storedSettings_setKeyOrder,
    storedSettings_setLedgers. simpl.
  destruct (currentUser w) as [uid|]; [|reflexivity].
  destruct (autoBackup (storedSettings w)); [|reflexivity].
  by destruct (deleteLedgerDoc uid ledgerId _) as [[[]|e] w1].
Qed.





(** ** Pulling from Firestore *)

(** A Firestore read: it throws exactly when the head of [network] is
    [false], and never changes Firestore or the local part of the world. *)
Lemma remote_read_run {A} (g : Firestore → A) w :
  ∃ r w', remote (λ fs, (g fs, fs)) w = (r, w') ∧
    sameLocal w w' ∧ firestore w' = firestore w ∧
    network w' = tail (network w) ∧
    (head (network w) = Some false → ∃ e, r = Thrown e) ∧
    (head (network w) ≠ Some false → r = Returned (g (firestore w))).
Proof.
  unfold remote. destruct (network w) as [|[|] rest]; simpl;
    eexists _, _; (split; [reflexivity|]); repeat split; try done.
  intros _. by eexists.
Qed.

Lemma fetchLedgers_outcome uid docs : ∀ allLedgers w,
  (false ∈ take (length docs) (network w) →
   ∃ e w', fetchLedgers uid docs allLedgers w = (Thrown e, w') ∧
     sameLocal w w' ∧ firestore w' = firestore w) ∧
  (false ∉ take (length docs) (network w) →
   ∃ w', fetchLedgers uid docs allLedgers w
         = (Returned (foldl (fetchStep uid (firestore w)) allLedgers docs), w') ∧
     sameLocal w w' ∧ firestore w' = firestore w ∧
     network w' = drop (length docs) (network w)).
Proof.
  induction docs as [|[ledgerId ledgerData] rest IH]; intros allLedgers w;
    simpl fetchLedgers; simpl length.
  - split; [by intros Hin%elem_of_nil|].
    intros _. exists w. by repeat split.
  - unfold mbind, Async_bind.
    destruct (remote_read_run (transactionDocsOf uid ledgerId) w)
      as (r & w1 & Hrun & Hlocal1 & Hfs1 & Hnet1 & Hfail & Hok).
    fold (getTransactionDocs uid ledgerId) in Hrun.
    destruct (network w) as [|[|] net] eqn:Hnet; simpl in Hnet1, Hfail, Hok.
    + rewrite (Hok ltac:(done)) in Hrun. rewrite Hrun.
      destruct (IH (fetchStep uid (firestore w) allLedgers (ledgerId, ledgerData)) w1)
        as [_ IHok].
      rewrite Hnet1, Hfs1 in IHok. rewrite take_nil in *. rewrite drop_nil in *.
      split; [by intros Hin%elem_of_nil|]. intros _.
      destruct (IHok ltac:(by intros Hin%elem_of_nil))
        as (w2 & Hrest & Hlocal2 & Hfs2 & Hnet2).
      exists w2. split; [exact Hrest|].
      split; [by eapply sameLocal_trans|]. split; [congruence|done].
    + rewrite (Hok ltac:(done)) in Hrun. rewrite Hrun.
      destruct (IH (fetchStep uid (firestore w) allLedgers (ledgerId, ledgerData)) w1)
        as [IHfail IHok].
      rewrite Hnet1, Hfs1 in IHfail, IHok.
      rewrite elem_of_take_cons_true. split.
      * intros Hin. destruct (IHfail Hin) as (e & w2 & Hrest & Hlocal2 & Hfs2).
        exists e, w2. split; [exact Hrest|].
        split; [by eapply sameLocal_trans|congruence].
      * intros Hnotin.
        destruct (IHok Hnotin) as (w2 & Hrest & Hlocal2 & Hfs2 & Hnet2).
        exists w2. split; [exact Hrest|].
        split; [by eapply sameLocal_trans|]. split; [congruence|done].
    + destruct (Hfail eq_refl) as [e ->]. rewrite Hrun.
      split; [|intros Hnotin; exfalso; apply Hnotin; rewrite firstn_cons; by left].
      intros _. by exists e, w1.
Qed.

Lemma elem_of_take_S_head (n : nat) (net : list bool) :
  false ∈ take (S n) net ↔ head net = Some false ∨ false ∈ take n (tail net).
Proof.
  destruct net as [|b net]; simpl.
  - rewrite take_nil. split; [by intros Hin%elem_of_nil|].
    by intros [?|Hin%elem_of_nil].
  - rewrite elem_of_cons. split.
    + intros [<-|Hin]; [by left|by right].
    + intros [[= <-]|Hin]; [by left|by right].
Qed.

Lemma ledgerDocsOf_elem uid fs k d :
  (k, d) ∈ ledgerDocsOf uid fs ↔ fs_ledgers fs !! (uid, k) = Some d.
Proof.
  unfold ledgerDocsOf. rewrite list_elem_of_omap. split.
  - intros ([[u l] d'] & Hdoc & Hsome). apply elem_of_map_to_list in Hdoc.
    destruct (decide (u = uid)) as [->|]; [|done]. by injection Hsome as -> ->.
  - intros Hdoc. exists ((uid, k), d). split; [by apply elem_of_map_to_list|].
    by rewrite decide_True.
Qed.

Lemma ledgerDocsOf_NoDup uid fs : NoDup (ledgerDocsOf uid fs).*1.
Proof.
  unfold ledgerDocsOf.
  pose proof (NoDup_fst_map_to_list (fs_ledgers fs)) as Hnodup.
  induction (map_to_list (fs_ledgers fs)) as [|[[u l] d] rest IH]; simpl;
    [constructor|].
  rewrite fmap_cons in Hnodup. apply NoDup_cons in Hnodup as [Hfresh Hnodup].
  destruct (decide (u = uid)) as [->|]; [|by apply IH].
  rewrite fmap_cons. apply NoDup_cons. split; [|by apply IH].
  intros Hin. apply Hfresh.
  apply list_elem_of_fmap in Hin as ([k d'] & Hk & Hin). simpl in Hk. subst k.
  apply list_elem_of_omap in Hin as ([[u' l'] d''] & Hrest & Hsome).
  destruct (decide (u' = uid)) as [->|]; [|done].
  injection Hsome as -> ->.
  apply list_elem_of_fmap. by exists ((uid, l), d').
Qed.

Lemma foldl_fetchStep_lookup uid fs docs : ∀ allLedgers k,
  NoDup docs.*1 →
  foldl (fetchStep uid fs) allLedgers docs !! k
  = match (list_to_map docs : gmap string LedgerDoc) !! k with
    | Some d => Some (fetchedLedger uid fs k d)
    | None => allLedgers !! k
    end.
Proof.
  induction docs as [|[k0 d0] rest IH]; intros allLedgers k Hnodup; simpl.
  - by rewrite lookup_empty.
  - rewrite fmap_cons in Hnodup. apply NoDup_cons in Hnodup as [Hfresh Hnodup].
    rewrite (IH _ k Hnodup). unfold fetchStep; simpl.
    destruct (decide (k = k0)) as [->|Hne].
    + rewrite lookup_insert_eq.
      rewrite (not_elem_of_list_to_map_1 _ _ Hfresh). by rewrite lookup_insert_eq.
    + by rewrite !lookup_insert_ne.
Qed.

Lemma fetched_lookup uid fs k :
  foldl (fetchStep uid fs) ∅ (ledgerDocsOf uid fs) !! k
  = fetchedLedger uid fs k <$> fs_ledgers fs !! (uid, k).
Proof.
  rewrite foldl_fetchStep_lookup by apply ledgerDocsOf_NoDup.
  destruct (fs_ledgers fs !! (uid, k)) as [d|] eqn:Hdoc; simpl.
  - apply ledgerDocsOf_elem in Hdoc.
    apply (elem_of_list_to_map_1 (M:=gmap string)) in Hdoc;
      [|apply ledgerDocsOf_NoDup].
    by rewrite Hdoc.
  - destruct (list_to_map (ledgerDocsOf uid fs) !! k) as [d|] eqn:Hin;
      [|by rewrite lookup_empty].
    apply elem_of_list_to_map_2, ledgerDocsOf_elem in Hin. congruence.
Qed.

Lemma fetchFromFirebase_signed_in w uid :
  currentUser w = Some uid →
  (false ∈ take (S (length (ledgerDocsOf uid (firestore w)))) (network w) →
   ∃ e w', fetchFromFirebase w = (Thrown e, w') ∧
     sameLocal w w' ∧ firestore w' = firestore w) ∧
  (false ∉ take (S (length (ledgerDocsOf uid (firestore w)))) (network w) →
   ∃ w', fetchFromFirebase w
         = (Returned (foldl (fetchStep uid (firestore w)) ∅
                        (ledgerDocsOf uid (firestore w))), w') ∧
     asyncStorage w'
     = <[ledgersKeyOf w :=
           Stringified (CLedgers (foldl (fetchStep uid (firestore w)) ∅
                                    (ledgerDocsOf uid (firestore w))))]>
         (asyncStorage w) ∧
     currentUser w' = currentUser w ∧ firestore w' = firestore w).
Proof.
  intros Huser. unfold fetchFromFirebase.
  destruct (remote_read_run (ledgerDocsOf uid) w)
    as (r & w1 & Hdocs & Hlocal1 & Hfs1 & Hnet1 & Hfail & Hok).
  fold (getLedgerDocs uid) in Hdocs.
  destruct (fetchLedgers_outcome uid (ledgerDocsOf uid (firestore w)) ∅ w1)
    as [Hfetch_fail Hfetch_ok].
  rewrite Hnet1, Hfs1 in Hfetch_fail, Hfetch_ok.
  rewrite elem_of_take_S_head. split.
  - intros Hbad.
    destruct (decide (head (network w) = Some false)) as [Hhead|Hhead].
    + destruct (Hfail Hhead) as [e ->]. exists e, w1.
      split; [|by split].
      erewrite tryCatch_thrown; [reflexivity|].
      step (eq_refl : getUser w = (Returned (currentUser w), w)). rewrite Huser.
      by rewrite (bind_thrown _ _ _ _ _ Hdocs).
    + destruct Hbad as [?|Hin]; [done|].
      rewrite (Hok Hhead) in Hdocs.
      destruct (Hfetch_fail Hin) as (e & w2 & Hrest & Hlocal2 & Hfs2).
      exists e, w2. split; [|split; [by eapply sameLocal_trans|congruence]].
      erewrite tryCatch_thrown; [reflexivity|].
      step (eq_refl : getUser w = (Returned (currentUser w), w)). rewrite Huser.
      step Hdocs. by rewrite (bind_thrown _ _ _ _ _ Hrest).
  - intros Hgood.
    assert (head (network w) ≠ Some false) as Hhead by (intros ?; apply Hgood; by left).
    assert (false ∉ take (length (ledgerDocsOf uid (firestore w))) (tail (network w)))
      as Hnotin by (intros ?; apply Hgood; by right).
    rewrite (Hok Hhead) in Hdocs.
    destruct (Hfetch_ok Hnotin) as (w2 & Hrest & Hlocal2 & Hfs2 & Hnet2).
    destruct Hlocal1 as (Hu1 & Hs1 & _), Hlocal2 as (Hu2 & Hs2 & _).
    eexists. split; [|split; [|split]].
    { apply tryCatch_returned.
      step (eq_refl : getUser w = (Returned (currentUser w), w)). rewrite Huser.
      step Hdocs. step Hrest.
      step (eq_refl : getLedgersKey w2 = (Returned (ledgersKeyOf w2), w2)).
      reflexivity. }
    + simpl. unfold ledgersKeyOf. by rewrite Hu2, Hu1, Hs2, Hs1.
    + simpl. congruence.
    + simpl. congruence.
Qed.

Lemma remoteLedgerIds_length uid fs :
  length (remoteLedgerIds uid fs) = length (ledgerDocsOf uid fs).
Proof. unfold remoteLedgerIds. apply length_fmap. Qed.





(** * Further properties of the code *)

(** ** Ledgers under add, edit and delete *)

Lemma applyOp_balance_abs ledger op :
  Z.abs (l_balance ledger) = Z.abs (signedSum (l_transactions ledger)) →
  Z.abs (l_balance (applyOp ledger op))
  = Z.abs (signedSum (l_transactions (applyOp ledger op))).
Proof.
  intros Hinv. destruct op as [f|transactionId]; simpl.
  - destruct (handleConfirm ledger f) as [ledger'|] eqn:Hconfirm; simpl; [|done].
    by rewrite (handleConfirm_balance_signedSum _ _ _ Hconfirm).
  - rewrite deleteBalance_creditSubtracts, creditSubtractsSum_neg. apply Z.abs_opp.
Qed.

(** X1. Whatever sequence of confirmed forms (accepted or rejected) and
    deletions is applied to a ledger whose balance equals its signed sum
    up to sign, the balance of the result equals the signed sum of its
    transactions up to sign: only the sign can be wrong. *)
Theorem applyOps_balance_abs (ledger : Ledger) (ops : list LedgerOp) :
  Z.abs (l_balance ledger) = Z.abs (signedSum (l_transactions ledger)) →
  Z.abs (l_balance (applyOps ledger ops))
  = Z.abs (signedSum (l_transactions (applyOps ledger ops))).
Proof.
  revert ledger. induction ops as [|op ops IH]; intros ledger Hinv; [done|].
  apply IH. by apply applyOp_balance_abs.
Qed.

Lemma applyOps_balance_abs_witness :
  Z.abs (l_balance raviLedger) = Z.abs (signedSum (l_transactions raviLedger)) ∧
  Z.abs (l_balance (applyOps raviLedger
                      [OpConfirm (addForm credit 100 1000 "t1"); OpDelete "t9"]))
  = 100.
Proof.
  split; [reflexivity|].
  rewrite (applyOps_balance_abs raviLedger _ eq_refl). reflexivity.
Defined.

Lemma sortByDate_sorted_id l : StronglySorted dateLe l → sortByDate l = l.
Proof.
  induction 1 as [|x l Hl IH Hx]; [done|].
  simpl. rewrite IH. destruct l as [|y r]; [done|]. simpl.
  apply Forall_cons in Hx as [Hxy _]. unfold dateLe in Hxy.
  by destruct (Z.leb_spec (tx_date x) (tx_date y)); [|lia].
Qed.

Lemma recalculate_dates ts : ∀ acc,
  tx_date <$> (recalculate acc ts).1 = tx_date <$> ts.
Proof.
  induction ts as [|t ts IH]; intros acc; simpl; [done|].
  specialize (IH (match tx_type t with
                  | credit => acc + tx_amount t
                  | debit => acc - tx_amount t
                  end)).
  destruct (recalculate _ ts) as [rest' final]; simpl in *. by f_equal.
Qed.

Lemma sorted_by_dates l l' :
  tx_date <$> l = tx_date <$> l' →
  StronglySorted dateLe l → StronglySorted dateLe l'.
Proof.
  revert l'. induction l as [|x l IH]; intros [|x' l'] Hdates Hsorted;
    try discriminate; [constructor|].
  rewrite !fmap_cons in Hdates. injection Hdates as Hx Hl.
  apply StronglySorted_inv in Hsorted as [Hsorted Hall].
  constructor; [by apply IH|].
  apply Forall_forall. intros y' Hy'.
  assert (tx_date y' ∈ tx_date <$> l') as Hin by (by apply list_elem_of_fmap_2).
  rewrite <- Hl in Hin. apply list_elem_of_fmap in Hin as (y & Hdate & Hy).
  rewrite Forall_forall in Hall. specialize (Hall y Hy).
  unfold dateLe in *. lia.
Qed.

Lemma recalculate_again ts : ∀ acc acc',
  recalculate acc (recalculate acc' ts).1 = recalculate acc ts.
Proof.
  induction ts as [|t ts IH]; intros acc acc'; simpl; [done|].
  specialize (IH (match tx_type t with
                  | credit => acc + tx_amount t
                  | debit => acc - tx_amount t
                  end)
                 (match tx_type t with
                  | credit => acc' + tx_amount t
                  | debit => acc' - tx_amount t
                  end)).
  destruct (recalculate (match tx_type t with
                         | credit => acc' + tx_amount t
                         | debit => acc' - tx_amount t
                         end) ts) as [rest' final'] eqn:Hinner.
  simpl in *. rewrite IH.
  by destruct (recalculate _ ts) as [rest final].
Qed.

(** X2. Recomputing is idempotent: the transaction list a recomputation
    produced is already in date order with the right running totals, so
    recomputing the ledger from it yields the same ledger. *)
Theorem recomputeLedger_idempotent (ledger : Ledger) (updated : list Transaction) :
  recomputeLedger ledger (l_transactions (recomputeLedger ledger updated))
  = recomputeLedger ledger updated.
Proof.
  rewrite recomputeLedger_transactions.
  unfold recomputeLedger.
  rewrite (sortByDate_sorted_id (recalculate 0 (sortByDate updated)).1).
  - by rewrite recalculate_again.
  - eapply sorted_by_dates; [symmetry; apply recalculate_dates|].
    apply sortByDate_sorted.
Qed.

Lemma recalculate_ids ts : ∀ acc,
  tx_id <$> (recalculate acc ts).1 = tx_id <$> ts.
Proof.
  induction ts as [|t ts IH]; intros acc; simpl; [done|].
  specialize (IH (match tx_type t with
                  | credit => acc + tx_amount t
                  | debit => acc - tx_amount t
                  end)).
  destruct (recalculate _ ts) as [rest' final]; simpl in *. by f_equal.
Qed.

Lemma recomputeLedger_ids ledger updated :
  tx_id <$> l_transactions (recomputeLedger ledger updated) ≡ₚ tx_id <$> updated.
Proof.
  rewrite recomputeLedger_transactions, recalculate_ids.
  by rewrite sortByDate_perm.
Qed.

Lemma edit_keeps_ids e td ts :
  tx_id td = tx_id e →
  tx_id <$> map (λ t, if decide (tx_id t = tx_id e) then td else t) ts = tx_id <$> ts.
Proof.
  intros Hid. induction ts as [|t ts IH]; simpl; [done|].
  f_equal; [|exact IH]. destruct (decide (tx_id t = tx_id e)); congruence.
Qed.

(** X3. An accepted add stores the old transaction ids and the new id,
    once each; an accepted edit stores exactly the ids the ledger had: no
    transaction is lost or duplicated by either. *)
Theorem handleConfirm_ids (ledger : Ledger) (f : ConfirmForm) :
  0 < cf_numAmount f →
  ∃ ledger',
    handleConfirm ledger f = Some ledger' ∧
    tx_id <$> l_transactions ledger'
    ≡ₚ match cf_editTransaction f with
       | Some _ => tx_id <$> l_transactions ledger
       | None => (tx_id <$> l_transactions ledger) ++ [cf_newId f]
       end.
Proof.
  intros Hpos. eexists. split.
  { unfold handleConfirm. destruct (Z.leb_spec (cf_numAmount f) 0); [lia|done]. }
  rewrite recomputeLedger_ids. unfold updatedTransactions, transactionData.
  destruct (cf_editTransaction f) as [e|].
  - by rewrite edit_keeps_ids.
  - by rewrite fmap_app.
Qed.

Lemma handleConfirm_ids_witness :
  0 < cf_numAmount (addForm debit 30 500 "t3") ∧
  ∃ ledger',
    handleConfirm raviAfterAdds (addForm debit 30 500 "t3") = Some ledger' ∧
    tx_id <$> l_transactions ledger' ≡ₚ ["t1"; "t2"; "t3"].
Proof.
  split; [reflexivity|].
  destruct (handleConfirm_ids raviAfterAdds (addForm debit 30 500 "t3") eq_refl)
    as (ledger' & Hsave & Hids).
  exists ledger'. split; [exact Hsave|exact Hids].
Defined.

Lemma recalculate_steps ts : ∀ acc i t,
  (recalculate acc ts).1 !! i = Some t →
  tx_balanceAfter t
  = Some (calculateBalance
            (match i with
             | O => acc
             | S j => default 0 ((recalculate acc ts).1 !! j ≫= tx_balanceAfter)
             end)
            (tx_type t) (tx_amount t)).
Proof.
  induction ts as [|t0 ts IH]; intros acc i t; simpl.
  - by rewrite lookup_nil.
  - set (acc' := match tx_type t0 with
                 | credit => acc + tx_amount t0
                 | debit => acc - tx_amount t0
                 end).
    specialize (IH acc').
    destruct (recalculate acc' ts) as [rest' final]; simpl in *.
    destruct i as [|j]; simpl.
    + intros [= <-]. simpl. unfold acc', calculateBalance. by destruct (tx_type t0).
    + intros Hj. rewrite (IH j t Hj). destruct j as [|k]; reflexivity.
Qed.

(** X4. In the ledger an accepted add or edit saves, the [balanceAfter]
    of every transaction is [calculateBalance] applied to the
    [balanceAfter] of the transaction before it (0 for the first), its
    type and its amount: the screen's inlined arithmetic agrees with
    calculations.js. *)
Theorem handleConfirm_steps_by_calculateBalance
    (ledger ledger' : Ledger) (f : ConfirmForm) (i : nat) (t : Transaction) :
  handleConfirm ledger f = Some ledger' →
  l_transactions ledger' !! i = Some t →
  tx_balanceAfter t
  = Some (calculateBalance
            (match i with
             | O => 0
             | S j => default 0 (l_transactions ledger' !! j ≫= tx_balanceAfter)
             end)
            (tx_type t) (tx_amount t)).
Proof.
  unfold handleConfirm. destruct (cf_numAmount f <=? 0); [done|].
  intros [= <-]. rewrite recomputeLedger_transactions.
  apply recalculate_steps.
Qed.

Lemma handleConfirm_steps_by_calculateBalance_witness :
  handleConfirm (applyOp raviLedger (OpConfirm (addForm credit 100 1000 "t1")))
                (addForm debit 30 2000 "t2") = Some raviAfterAdds ∧
  ∃ t, l_transactions raviAfterAdds !! 1%nat = Some t ∧
       tx_balanceAfter t = Some (calculateBalance 100 debit 30).
Proof.
  split; [reflexivity|].
  eexists. split; [reflexivity|].
  exact (handleConfirm_steps_by_calculateBalance _ _ _ 1 _
           (eq_refl : handleConfirm
                        (applyOp raviLedger (OpConfirm (addForm credit 100 1000 "t1")))
                        (addForm debit 30 2000 "t2") = Some raviAfterAdds)
           eq_refl).
Defined.

(** ** [deleteTransaction], further *)

Lemma deleteTransaction_run ledgerId transactionId w :
  deleteTransaction ledgerId transactionId w
  = match storedLedgers w !! ledgerId with
    | None => (Returned false, w)
    | Some ledger =>
        let w0 :=
          setAsyncStorage
            (<[ledgersKeyOf w :=
                 Stringified (CLedgers (<[ledgerId := removeTransaction ledger transactionId]>
                                          (storedLedgers w)))]>
               (asyncStorage w)) w in
        (Returned true,
         if bool_decide (is_Some (currentUser w)) && autoBackup (storedSettings w)
         then setBackground (background w ++ [SyncAllTask]) w0 else w0)
    end.
Proof.
  unfold deleteTransaction, getLedgersKey. unfold_async; simpl.
  rewrite getAllLedgers_reads.
  destruct (storedLedgers w !! ledgerId) as [ledger|]; [|reflexivity].
  fold (ledgersKeyOf w).
  rewrite getBackupSettings_reads, storedSettings_setLedgers. simpl.
  by destruct (bool_decide (is_Some (currentUser w)) && autoBackup (storedSettings w)).
Qed.

Lemma filter_all_kept (transactionId : string) (ts : list Transaction) :
  Forall (λ t, tx_id t ≠ transactionId) ts →
  filter (λ t, tx_id t ≠ transactionId) ts = ts.
Proof.
  induction 1 as [|t ts Ht _ IH]; [done|].
  rewrite filter_cons_True by done. by rewrite IH.
Qed.

(** X5. Deleting a transaction id the ledger does not contain still
    returns true and rewrites the ledger: its transactions are kept as
    they are, and a balance that was the signed sum of the transactions is
    replaced by its opposite. *)
Theorem deleteTransaction_absent_id_negates_balance
    (w : World) (ledgerId transactionId : string) (ledger : Ledger) :
  storedLedgers w !! ledgerId = Some ledger →
  Forall (λ t, tx_id t ≠ transactionId) (l_transactions ledger) →
  l_balance ledger = signedSum (l_transactions ledger) →
  ∃ w',
    deleteTransaction ledgerId transactionId w = (Returned true, w') ∧
    storedLedgers w' !! ledgerId
    = Some (withBalanceAndTransactions ledger (- l_balance ledger)
              (l_transactions ledger)).
Proof.
  intros Hledger Habsent Hbalance.
  rewrite deleteTransaction_run, Hledger. cbv zeta.
  eexists. split; [reflexivity|].
  assert (removeTransaction ledger transactionId
          = withBalanceAndTransactions ledger (- l_balance ledger)
              (l_transactions ledger)) as ->.
  { unfold removeTransaction. rewrite (filter_all_kept _ _ Habsent).
    by rewrite deleteBalance_creditSubtracts, creditSubtractsSum_neg, Hbalance. }
  destruct (bool_decide (is_Some (currentUser w)) && autoBackup (storedSettings w));
    unfold storedLedgers at 1, ledgersKeyOf; simpl;
    rewrite lookup_insert_eq; simpl; apply lookup_insert_eq.
Qed.

Lemma deleteTransaction_absent_id_negates_balance_witness :
  storedLedgers (userWorld []) !! "L1" = Some raviAfterAdds ∧
  Forall (λ t, tx_id t ≠ "t9") (l_transactions raviAfterAdds) ∧
  l_balance raviAfterAdds = signedSum (l_transactions raviAfterAdds) ∧
  ∃ w' ledger',
    deleteTransaction "L1" "t9" (userWorld []) = (Returned true, w') ∧
    storedLedgers w' !! "L1" = Some ledger' ∧
    l_balance ledger' = -70.
Proof.
  assert (Forall (λ t, tx_id t ≠ "t9") (l_transactions raviAfterAdds)) as Habsent.
  { repeat constructor; discriminate. }
  split; [by vm_compute|]. split; [exact Habsent|]. split; [reflexivity|].
  destruct (deleteTransaction_absent_id_negates_balance (userWorld []) "L1" "t9"
              raviAfterAdds eq_refl Habsent eq_refl) as (w' & Hrun & Hstored).
  exists w'. eexists. split; [exact Hrun|]. split; [exact Hstored|reflexivity].
Defined.

(** ** [saveLedger] *)

Lemma saveLedger_run ledger w :
  saveLedger ledger w
  = (Returned true,
     let w0 :=
       setKeyOrder (keysAfterSet (ledgerKeyOrder w) (storedLedgers w) (l_id ledger))
         (setAsyncStorage
            (<[ledgersKeyOf w :=
                 Stringified (CLedgers (<[l_id ledger := ledger]> (storedLedgers w)))]>
               (asyncStorage w)) w) in
     if autoBackup (storedSettings w)
     then setBackground (background w ++ [SyncLedgerTask ledger]) w0 else w0).
Proof.
  unfold saveLedger, getLedgersKey. unfold_async; simpl.
  rewrite getAllLedgers_reads. fold (ledgersKeyOf w).
  rewrite getBackupSettings_reads, storedSettings_setKeyOrder,
    storedSettings_setLedgers. simpl.
  by destruct (autoBackup (storedSettings w)).
Qed.

Lemma storedLedgers_setBackground bg w :
  storedLedgers (setBackground bg w) = storedLedgers w.
Proof. reflexivity. Qed.



(** X7. When the text stored under the ledgers key does not parse,
    [getAllLedgers] returns the empty collection, and the next
    [saveLedger] overwrites the stored text with a collection that holds
    the saved ledger only. *)
Theorem saveLedger_over_corrupt_store (w : World) (ledger : Ledger) :
  asyncStorage w !! ledgersKeyOf w = Some Garbage →
  getAllLedgers w = (Returned ∅, w) ∧
  ∃ w',
    saveLedger ledger w = (Returned true, w') ∧
    asyncStorage w' !! ledgersKeyOf w
    = Some (Stringified (CLedgers {[ l_id ledger := ledger ]})) ∧
    getAllLedgers w' = (Returned {[ l_id ledger := ledger ]}, w').
Proof.
  intros Hgarbage.
  assert (storedLedgers w = ∅) as Hempty
    by (unfold storedLedgers; by rewrite Hgarbage).
  split; [by rewrite getAllLedgers_reads, Hempty|].
  rewrite saveLedger_run, Hempty. cbv zeta. eexists. split; [reflexivity|].
  rewrite getAllLedgers_reads.
  destruct (autoBackup (storedSettings w)); simpl;
    rewrite ?storedLedgers_setBackground, storedLedgers_setKeyOrder,
      (storedLedgers_setLedgers w);
    by rewrite lookup_insert_eq.
Qed.

Lemma saveLedger_over_corrupt_store_witness :
  asyncStorage corruptWorld !! ledgersKeyOf corruptWorld = Some Garbage ∧
  ∃ w', saveLedger raviLedger corruptWorld = (Returned true, w') ∧
        getAllLedgers w' = (Returned {[ "L1" := raviLedger ]}, w').
Proof.
  split; [by vm_compute|].
  destruct (saveLedger_over_corrupt_store corruptWorld raviLedger eq_refl)
    as (_ & w' & Hsave & _ & Hread).
  exists w'. by split.
Defined.

(** ** [deleteLedger], further *)

(** X8. When a user is signed in with auto-backup on and the Firestore
    deletion fails, [deleteLedger] returns false although the ledger is
    already gone from local storage; the Firestore document stays.  In
    every run the transaction documents of the ledger stay in Firestore. *)
Theorem deleteLedger_failure_not_rolled_back (w : World) (ledgerId uid : string) :
  (currentUser w = Some uid →
   autoBackup (storedSettings w) = true →
   head (network w) = Some false →
   ∃ w',
     deleteLedger ledgerId w = (Returned false, w') ∧
     storedLedgers w' = delete ledgerId (storedLedgers w) ∧
     fs_ledgers (firestore w') = fs_ledgers (firestore w)) ∧
  fs_transactions (firestore (deleteLedger ledgerId w).2)
  = fs_transactions (firestore w).
Proof.
  rewrite deleteLedger_run. cbv zeta. split.
  - intros Huser Hauto Hhead. rewrite Huser, Hauto.
    destruct (network w) as [|[|] rest] eqn:Hnet; try done.
    unfold deleteLedgerDoc. erewrite remote_fails by (simpl; exact Hnet).
    eexists. split; [reflexivity|]. split; [|reflexivity].
    apply (storedLedgers_setLedgers w).
  - destruct (currentUser w) as [u|]; [|reflexivity].
    destruct (autoBackup (storedSettings w)); [|reflexivity].
    unfold deleteLedgerDoc, remote. simpl.
    by destruct (network w) as [|[|] rest].
Qed.

Lemma deleteLedger_failure_not_rolled_back_witness :
  currentUser (backedUpWorld [false]) = Some "u1" ∧
  autoBackup (storedSettings (backedUpWorld [false])) = true ∧
  head (network (backedUpWorld [false])) = Some false ∧
  ∃ w', deleteLedger "L1" (backedUpWorld [false]) = (Returned false, w') ∧
        storedLedgers w' !! "L1" = None.
Proof.
  split; [reflexivity|]. split; [by vm_compute|]. split; [reflexivity|].
  destruct (proj1 (deleteLedger_failure_not_rolled_back (backedUpWorld [false]) "L1" "u1")
              eq_refl eq_refl eq_refl) as (w' & Hrun & Hstored & _).
  exists w'. split; [exact Hrun|]. rewrite Hstored. apply lookup_delete_eq.
Defined.

(** ** Backup settings *)


(** ** [fetchFromFirebase] *)

(** X10. Signed out, [fetchFromFirebase] returns the empty mapping and
    changes nothing, local storage included.  Signed in, when the read of
    the ledger collection or of one of the transaction subcollections
    fails, the error is rethrown to the caller and local storage is left
    as it was. *)
Theorem fetchFromFirebase_errors (w : World) :
  (currentUser w = None → fetchFromFirebase w = (Returned ∅, w)) ∧
  (∀ uid, currentUser w = Some uid →
     false ∈ take (S (length (remoteLedgerIds uid (firestore w)))) (network w) →
     ∃ e w', fetchFromFirebase w = (Thrown e, w') ∧
             asyncStorage w' = asyncStorage w ∧
             storedLedgers w' = storedLedgers w).
Proof.
  split.
  - intros Huser. unfold fetchFromFirebase. apply tryCatch_returned.
    rewrite (bind_returned getUser _ w _ w eq_refl). by rewrite Huser.
  - intros uid Huser Hbad. rewrite remoteLedgerIds_length in Hbad.
    destruct (proj1 (fetchFromFirebase_signed_in w uid Huser) Hbad)
      as (e & w' & Hrun & Hlocal & _).
    exists e, w'. split; [exact Hrun|].
    split; [apply Hlocal|by apply sameLocal_storedLedgers].
Qed.

Lemma fetchFromFirebase_errors_witness :
  currentUser (userWorld [true; false]) = Some "u1" ∧
  false ∈ take (S (length (remoteLedgerIds "u1" (firestore (userWorld [true; false])))))
               (network (userWorld [true; false])) ∧
  ∃ e w', fetchFromFirebase (userWorld [true; false]) = (Thrown e, w') ∧
          storedLedgers w' !! "L1" = Some raviAfterAdds.
Proof.
  assert (false ∈ take (S (length (remoteLedgerIds "u1"
                                     (firestore (userWorld [true; false])))))
                       (network (userWorld [true; false]))) as Hbad.
  { vm_compute. right. left. }
  split; [reflexivity|]. split; [exact Hbad|].
  destruct (proj2 (fetchFromFirebase_errors (userWorld [true; false])) "u1"
              eq_refl Hbad) as (e & w' & Hrun & _ & Hstored).
  exists e, w'. split; [exact Hrun|]. rewrite Hstored. by vm_compute.
Defined.

(** X11. Signed in with every read succeeding, [fetchFromFirebase]
    returns, and makes the local collection equal to, the mapping that has
    under each id of a Firestore ledger document the ledger built from
    that document and its transaction documents, and nothing else; the
    transactions of every fetched ledger are in ascending date order. *)
Theorem fetchFromFirebase_success (w : World) (uid : string) :
  currentUser w = Some uid →
  false ∉ take (S (length (remoteLedgerIds uid (firestore w)))) (network w) →
  ∃ m w',
    fetchFromFirebase w = (Returned m, w') ∧
    getAllLedgers w' = (Returned m, w') ∧
    (∀ k, m !! k
          = (fetchedLedger uid (firestore w) k <$> fs_ledgers (firestore w) !! (uid, k))) ∧
    (∀ k ledger, m !! k = Some ledger →
       StronglySorted dateLe (l_transactions ledger)).
Proof.
  intros Huser Hgood. rewrite remoteLedgerIds_length in Hgood.
  destruct (proj2 (fetchFromFirebase_signed_in w uid Huser) Hgood)
    as (w' & Hrun & Hstorage & Huser' & _).
  eexists _, w'. split; [exact Hrun|].
  split; [|split].
  - rewrite getAllLedgers_reads. f_equal. f_equal.
    unfold storedLedgers, ledgersKeyOf. rewrite Huser', Hstorage.
    by rewrite lookup_insert_eq.
  - intros k. apply fetched_lookup.
  - intros k ledger. rewrite fetched_lookup.
    destruct (fs_ledgers (firestore w) !! (uid, k)) as [d|]; simpl; [|done].
    intros [= <-]. apply sortByDate_sorted.
Qed.

Lemma fetchFromFirebase_success_witness :
  currentUser (userWorld []) = Some "u1" ∧
  (false ∉ take (S (length (remoteLedgerIds "u1" (firestore (userWorld [])))))
                (network (userWorld []))) ∧
  ∃ m w' ledger,
    fetchFromFirebase (userWorld []) = (Returned m, w') ∧
    m !! "L1" = Some ledger ∧ l_name ledger = "Ravi" ∧ l_balance ledger = 70.
Proof.
  assert (false ∉ take (S (length (remoteLedgerIds "u1" (firestore (userWorld [])))))
                       (network (userWorld []))) as Hgood.
  { vm_compute. by intros Hin%elem_of_nil. }
  split; [reflexivity|]. split; [exact Hgood|].
  destruct (fetchFromFirebase_success (userWorld []) "u1" eq_refl Hgood)
    as (m & w' & Hrun & _ & Hcontent & _).
  exists m, w'. eexists. split; [exact Hrun|].
  rewrite Hcontent. split; [by vm_compute|]. split; reflexivity.
Defined.

(** X12. When Firestore holds no ledger document for the signed-in user
    and the read succeeds, [fetchFromFirebase] returns the empty mapping
    and overwrites the local collection with it: ledgers that were only
    local are gone. *)
Theorem fetchFromFirebase_empty_cloud_empties_local (w : World) (uid : string) :
  currentUser w = Some uid →
  remoteLedgerIds uid (firestore w) = [] →
  head (network w) ≠ Some false →
  ∃ w', fetchFromFirebase w = (Returned ∅, w') ∧
        getAllLedgers w' = (Returned ∅, w').
Proof.
  intros Huser Hnone Hhead.
  assert (ledgerDocsOf uid (firestore w) = []) as Hdocs.
  { unfold remoteLedgerIds in Hnone. by apply fmap_nil_inv in Hnone. }
  assert (false ∉ take (S (length (ledgerDocsOf uid (firestore w)))) (network w))
    as Hgood.
  { rewrite Hdocs, elem_of_take_S_head, take_0.
    by intros [?|Hin%elem_of_nil]. }
  destruct (proj2 (fetchFromFirebase_signed_in w uid Huser) Hgood)
    as (w' & Hrun & Hstorage & Huser' & _).
  rewrite Hdocs in Hrun, Hstorage. simpl in Hrun, Hstorage.
  exists w'. split; [exact Hrun|].
  rewrite getAllLedgers_reads. f_equal. f_equal.
  unfold storedLedgers, ledgersKeyOf. rewrite Huser', Hstorage.
  by rewrite lookup_insert_eq.
Qed.

Lemma fetchFromFirebase_empty_cloud_empties_local_witness :
  currentUser (unsyncedWorld []) = Some "u1" ∧
  remoteLedgerIds "u1" (firestore (unsyncedWorld [])) = [] ∧
  head (network (unsyncedWorld [])) ≠ Some false ∧
  storedLedgers (unsyncedWorld []) !! "L1" = Some raviAfterAdds ∧
  ∃ w', fetchFromFirebase (unsyncedWorld []) = (Returned ∅, w') ∧
        getAllLedgers w' = (Returned ∅, w').
Proof.
  split; [reflexivity|]. split; [by vm_compute|]. split; [discriminate|].
  split; [by vm_compute|].
  apply (fetchFromFirebase_empty_cloud_empties_local (unsyncedWorld []) "u1");
    [reflexivity|by vm_compute|discriminate].
Defined.

(** ** Pushing a ledger and pulling it back *)

Lemma online_tail w fs :
  online w → online (setRemote fs (tail (network w)) w).
Proof.
  unfold online; simpl. intros Hall.
  destruct (network w) as [|b net]; simpl; [done|].
  by apply Forall_cons in Hall as [_ Hall].
Qed.

Lemma online_head w : online w → head (network w) ≠ Some false.
Proof.
  unfold online. destruct (network w) as [|b net]; simpl; [done|].
  intros [-> _]%Forall_cons. discriminate.
Qed.

Lemma online_no_failure w (n : nat) : online w → false ∉ take n (network w).
Proof.
  unfold online. intros Hall Hin.
  apply elem_of_take in Hin as (i & Hi & _).
  rewrite Forall_lookup in Hall. by specialize (Hall i false Hi).
Qed.

Lemma remote_online {A} (call : Firestore → A * Firestore) w :
  online w →
  remote call w
  = (Returned (call (firestore w)).1,
     setRemote (call (firestore w)).2 (tail (network w)) w).
Proof. intros Honline. by apply remote_succeeds, online_head. Qed.

Lemma syncTransactions_online uid ledgerId ts : ∀ w,
  online w →
  ∃ w', syncTransactions uid ledgerId ts w = (Returned (), w') ∧
    sameLocal w w' ∧ online w' ∧
    fs_ledgers (firestore w') = fs_ledgers (firestore w) ∧
    fs_transactions (firestore w')
    = foldl (pushTransaction uid ledgerId) (fs_transactions (firestore w)) ts.
Proof.
  induction ts as [|t ts IH]; intros w Honline; simpl.
  - exists w. by repeat split.
  - unfold setTransactionDoc. unfold mbind, Async_bind.
    rewrite (remote_online _ w Honline). simpl.
    match goal with
    | |- context [syncTransactions uid ledgerId ts ?w1] =>
        destruct (IH w1) as (w' & Hrest & Hlocal & Honline' & Hledgers & Htxs);
          [by apply online_tail|]
    end.
    exists w'. split; [exact Hrest|].
    split; [destruct Hlocal as (? & ? & ?); by repeat split|].
    split; [exact Honline'|]. split; [exact Hledgers|exact Htxs].
Qed.

Lemma syncLedgerToFirebase_online ledger w uid :
  currentUser w = Some uid →
  online w →
  ∃ w', syncLedgerToFirebase ledger w = (Returned (), w') ∧
    sameLocal w w' ∧ online w' ∧
    fs_ledgers (firestore w')
    = <[(uid, l_id ledger) :=
          {| d_name := l_name ledger; d_balance := l_balance ledger;
             d_phone := default "" (l_phone ledger);
             d_address := default "" (l_address ledger);
             d_updatedAt := clock w |}]> (fs_ledgers (firestore w)) ∧
    fs_transactions (firestore w')
    = foldl (pushTransaction uid (l_id ledger)) (fs_transactions (firestore w))
            (l_transactions ledger).
Proof.
  intros Huser Honline. unfold syncLedgerToFirebase.
  set (doc := {| d_name := l_name ledger; d_balance := l_balance ledger;
                 d_phone := default "" (l_phone ledger);
                 d_address := default "" (l_address ledger);
                 d_updatedAt := clock w |}).
  pose proof (remote_online
                (λ fs, ((), {| fs_ledgers := <[(uid, l_id ledger) := doc]> (fs_ledgers fs);
                               fs_transactions := fs_transactions fs;
                               fs_expenses := fs_expenses fs;
                               fs_categories := fs_categories fs |}))
                w Honline) as Hset.
  fold (setLedgerDoc uid (l_id ledger) doc) in Hset. simpl in Hset.
  match type of Hset with
  | _ = (_, ?w1) =>
      destruct (syncTransactions_online uid (l_id ledger) (l_transactions ledger) w1)
        as (w' & Htxs & Hlocal & Honline' & Hledgers & Hdocs);
        [by apply (online_tail w)|]
  end.
  exists w'. split; [|split; [|split; [exact Honline'|split]]].
  - apply tryCatch_returned.
    step (eq_refl : getUser w = (Returned (currentUser w), w)). rewrite Huser.
    step (eq_refl : now w = (Returned (clock w), w)).
    step Hset. exact Htxs.
  - destruct Hlocal as (? & ? & ?). by repeat split.
  - exact Hledgers.
  - exact Hdocs.
Qed.

Lemma pushedPair_ids ts : (pushedPair <$> ts).*1 = tx_id <$> ts.
Proof. by rewrite <- list_fmap_compose. Qed.

Lemma pushed_lookup uid ledgerId ts : ∀ docs transactionId,
  NoDup (tx_id <$> ts) →
  foldl (pushTransaction uid ledgerId) docs ts !! (uid, ledgerId, transactionId)
  = match (list_to_map (pushedPair <$> ts) : gmap string TransactionDoc)
          !! transactionId with
    | Some d => Some d
    | None => docs !! (uid, ledgerId, transactionId)
    end.
Proof.
  induction ts as [|t ts IH]; intros docs transactionId Hnodup; simpl.
  - by rewrite lookup_empty.
  - rewrite fmap_cons in Hnodup. apply NoDup_cons in Hnodup as [Hfresh Hnodup].
    rewrite (IH _ transactionId Hnodup). unfold pushTransaction.
    destruct (decide (transactionId = tx_id t)) as [->|Hne].
    + rewrite lookup_insert_eq.
      rewrite not_elem_of_list_to_map_1 by (by rewrite pushedPair_ids).
      by rewrite lookup_insert_eq.
    + rewrite lookup_insert_ne by congruence.
      by rewrite lookup_insert_ne by congruence.
Qed.

Lemma transactionDocsOf_elem uid ledgerId fs transactionId d :
  (transactionId, d) ∈ transactionDocsOf uid ledgerId fs
  ↔ fs_transactions fs !! (uid, ledgerId, transactionId) = Some d.
Proof.
  unfold transactionDocsOf. rewrite list_elem_of_omap. split.
  - intros ([[[u l] i] d'] & Hdoc & Hsome). apply elem_of_map_to_list in Hdoc.
    destruct (decide (u = uid ∧ l = ledgerId)) as [[-> ->]|]; [|done].
    by injection Hsome as -> ->.
  - intros Hdoc. exists ((uid, ledgerId, transactionId), d).
    split; [by apply elem_of_map_to_list|]. by rewrite decide_True.
Qed.

Lemma transactionDocsOf_NoDup uid ledgerId fs :
  NoDup (transactionDocsOf uid ledgerId fs).*1.
Proof.
  unfold transactionDocsOf.
  pose proof (NoDup_fst_map_to_list (fs_transactions fs)) as Hnodup.
  induction (map_to_list (fs_transactions fs)) as [|[[[u l] i] d] rest IH]; simpl;
    [constructor|].
  rewrite fmap_cons in Hnodup. apply NoDup_cons in Hnodup as [Hfresh Hnodup].
  destruct (decide (u = uid ∧ l = ledgerId)) as [[-> ->]|]; [|by apply IH].
  rewrite fmap_cons. apply NoDup_cons. split; [|by apply IH].
  intros Hin. apply Hfresh.
  apply list_elem_of_fmap in Hin as ([k d'] & Hk & Hin). simpl in Hk. subst k.
  apply list_elem_of_omap in Hin as ([[[u' l'] i'] d''] & Hrest & Hsome).
  destruct (decide (u' = uid ∧ l' = ledgerId)) as [[-> ->]|]; [|done].
  injection Hsome as -> ->.
  apply list_elem_of_fmap. by exists ((uid, ledgerId, i), d').
Qed.

Lemma pulled_transactions uid ledgerId fs docs ts :
  NoDup (tx_id <$> ts) →
  (∀ transactionId, docs !! (uid, ledgerId, transactionId) = None) →
  fs_transactions fs = foldl (pushTransaction uid ledgerId) docs ts →
  transactionDocsOf uid ledgerId fs ≡ₚ pushedPair <$> ts.
Proof.
  intros Hnodup Hfresh Hfs.
  assert (NoDup (pushedPair <$> ts).*1) as Hpairs by (by rewrite pushedPair_ids).
  apply NoDup_Permutation.
  - eapply NoDup_fmap_1, transactionDocsOf_NoDup.
  - by eapply NoDup_fmap_1.
  - intros [transactionId d].
    rewrite transactionDocsOf_elem, Hfs, pushed_lookup, Hfresh by done.
    rewrite (elem_of_list_to_map (M:=gmap string)) by done.
    by destruct (list_to_map (pushedPair <$> ts) !! transactionId).
Qed.

(** X13. Round trip through Firestore.  With a user signed in and no
    Firestore call failing, pushing a ledger whose transaction ids are
    distinct, to a cloud that holds no transaction document of that
    ledger yet, and then fetching, gives back under the ledger's id a
    ledger with the same name and balance, whose transactions are the
    original ones up to order, each reduced to its id, type, amount, date
    and [balanceAfter]: notes, display dates and bill photos do not come
    back. *)
Theorem syncLedger_then_fetch (w : World) (uid : string) (ledger : Ledger) :
  currentUser w = Some uid →
  online w →
  NoDup (tx_id <$> l_transactions ledger) →
  (∀ transactionId,
     fs_transactions (firestore w) !! (uid, l_id ledger, transactionId) = None) →
  ∃ w1 m w2 ledger',
    syncLedgerToFirebase ledger w = (Returned (), w1) ∧
    fetchFromFirebase w1 = (Returned m, w2) ∧
    m !! l_id ledger = Some ledger' ∧
    l_id ledger' = l_id ledger ∧
    l_name ledger' = l_name ledger ∧
    l_balance ledger' = l_balance ledger ∧
    l_transactions ledger' ≡ₚ cloudCopy <$> l_transactions ledger.
Proof.
  intros Huser Honline Hnodup Hfresh.
  destruct (syncLedgerToFirebase_online ledger w uid Huser Honline)
    as (w1 & Hsync & Hlocal & Honline1 & Hledgers & Hdocs).
  assert (currentUser w1 = Some uid) as Huser1
    by (destruct Hlocal as (-> & _); exact Huser).
  destruct (proj2 (fetchFromFirebase_signed_in w1 uid Huser1)
              (online_no_failure w1 _ Honline1)) as (w2 & Hfetch & _).
  eexists w1, _, w2, _. split; [exact Hsync|]. split; [exact Hfetch|].
  split.
  { rewrite fetched_lookup, Hledgers, lookup_insert_eq. reflexivity. }
  repeat split. simpl.
  rewrite sortByDate_perm.
  rewrite (pulled_transactions uid (l_id ledger) (firestore w1) _ _
             Hnodup Hfresh Hdocs).
  rewrite <- list_fmap_compose. reflexivity.
Qed.

Lemma syncLedger_then_fetch_witness :
  currentUser (unsyncedWorld []) = Some "u1" ∧
  online (unsyncedWorld []) ∧
  NoDup (tx_id <$> l_transactions raviAfterAdds) ∧
  ∃ w1 m w2 ledger',
    syncLedgerToFirebase raviAfterAdds (unsyncedWorld []) = (Returned (), w1) ∧
    fetchFromFirebase w1 = (Returned m, w2) ∧
    m !! "L1" = Some ledger' ∧
    l_balance ledger' = 70 ∧
    length (l_transactions ledger') = 2%nat.
Proof.
  assert (online (unsyncedWorld [])) as Honline by constructor.
  assert (NoDup (tx_id <$> l_transactions raviAfterAdds)) as Hnodup.
  { vm_compute. repeat constructor; [|by intros Hin%elem_of_nil].
    intros [Heq|Hin%elem_of_nil]%elem_of_cons; [discriminate|done]. }
  split; [reflexivity|]. split; [exact Honline|]. split; [exact Hnodup|].
  destruct (syncLedger_then_fetch (unsyncedWorld []) "u1" raviAfterAdds
              eq_refl Honline Hnodup (λ _, eq_refl))
    as (w1 & m & w2 & ledger' & Hsync & Hfetch & Hm & _ & _ & Hbal & Htxs).
  exists w1, m, w2, ledger'. split; [exact Hsync|]. split; [exact Hfetch|].
  split; [exact Hm|]. split; [exact Hbal|].
  by rewrite (Permutation_length Htxs), length_fmap.
Defined.

(** X14. [syncLedgerToFirebase] is best effort: it always returns
    normally and never touches local storage; signed out it does nothing
    at all; and when the write of the ledger document fails, no
    transaction document is written either. *)
Theorem syncLedgerToFirebase_best_effort (ledger : Ledger) (w : World) :
  ∃ w',
    syncLedgerToFirebase ledger w = (Returned (), w') ∧
    asyncStorage w' = asyncStorage w ∧
    (currentUser w = None → w' = w) ∧
    (head (network w) = Some false → firestore w' = firestore w).
Proof.
  destruct (syncLedgerToFirebase_returns ledger w) as (w' & Hrun & Hlocal).
  exists w'. split; [exact Hrun|]. split; [apply Hlocal|]. split.
  - intros Huser. revert Hrun. unfold syncLedgerToFirebase, tryCatch.
    rewrite (bind_returned getUser _ w _ w eq_refl), Huser.
    by intros [= <-].
  - intros Hhead. revert Hrun. unfold syncLedgerToFirebase, tryCatch.
    rewrite (bind_returned getUser _ w _ w eq_refl).
    destruct (currentUser w) as [uid|]; [|by intros [= <-]].
    rewrite (bind_returned now _ w _ w eq_refl). cbv beta.
    destruct (network w) as [|[|] rest] eqn:Hnet; try done.
    unfold setLedgerDoc.
    erewrite bind_thrown by (apply remote_fails; exact Hnet).
    by intros [= <-].
Qed.

(** ** storage.js, [clearAllData] *)

Lemma issueDeletes_run uid ledgerIds : ∀ w,
  ∃ allFulfilled w',
    issueDeletes uid ledgerIds w = (Returned allFulfilled, w') ∧
    sameLocal w w' ∧
    fs_transactions (firestore w') = fs_transactions (firestore w) ∧
    (∀ key, fs_ledgers (firestore w) !! key = None →
            fs_ledgers (firestore w') !! key = None) ∧
    (online w →
     ∀ k, k ∈ ledgerIds → fs_ledgers (firestore w') !! (uid, k) = None).
Proof.
  induction ledgerIds as [|ledgerId rest IH]; intros w; simpl.
  - exists true, w. repeat split; try done.
    intros _ k Hin. by apply elem_of_nil in Hin.
  - unfold deleteLedgerDoc.
    destruct (network w) as [|[|] net] eqn:Hnet.
    + pose proof (remote_succeeds
                    (λ fs, ((), {| fs_ledgers := delete (uid, ledgerId) (fs_ledgers fs);
                                   fs_transactions := fs_transactions fs;
                                   fs_expenses := fs_expenses fs;
                                   fs_categories := fs_categories fs |})) w) as Hdel.
      rewrite Hnet in Hdel. specialize (Hdel ltac:(done)). simpl in Hdel.
      match type of Hdel with
      | _ = (_, ?w1) =>
          destruct (IH w1)
            as (others & w' & Hrest & Hlocal & Htxs & Hmono & Hgone)
      end.
      exists (true && others), w'. split.
      { erewrite bind_returned;
          [|apply tryCatch_returned; erewrite bind_returned by exact Hdel; reflexivity].
        cbv beta. by erewrite bind_returned by exact Hrest. }
      split; [destruct Hlocal as (? & ? & ?); by repeat split|].
      split; [exact Htxs|]. split.
      * intros key Hkey. apply Hmono. simpl.
        destruct (decide (key = (uid, ledgerId))) as [->|];
          [apply lookup_delete_eq|by rewrite lookup_delete_ne].
      * intros Honline k [->|Hin]%elem_of_cons.
        -- apply Hmono. simpl. apply lookup_delete_eq.
        -- apply Hgone; [|exact Hin]. constructor.
    + pose proof (remote_succeeds
                    (λ fs, ((), {| fs_ledgers := delete (uid, ledgerId) (fs_ledgers fs);
                                   fs_transactions := fs_transactions fs;
                                   fs_expenses := fs_expenses fs;
                                   fs_categories := fs_categories fs |})) w) as Hdel.
      rewrite Hnet in Hdel. specialize (Hdel ltac:(done)). simpl in Hdel.
      match type of Hdel with
      | _ = (_, ?w1) =>
          destruct (IH w1)
            as (others & w' & Hrest & Hlocal & Htxs & Hmono & Hgone)
      end.
      exists (true && others), w'. split.
      { erewrite bind_returned;
          [|apply tryCatch_returned; erewrite bind_returned by exact Hdel; reflexivity].
        cbv beta. by erewrite bind_returned by exact Hrest. }
      split; [destruct Hlocal as (? & ? & ?); by repeat split|].
      split; [exact Htxs|]. split.
      * intros key Hkey. apply Hmono. simpl.
        destruct (decide (key = (uid, ledgerId))) as [->|];
          [apply lookup_delete_eq|by rewrite lookup_delete_ne].
      * unfold online. rewrite Hnet. intros [_ Honline]%Forall_cons.
        intros k [->|Hin]%elem_of_cons.
        -- apply Hmono. simpl. apply lookup_delete_eq.
        -- by apply Hgone.
    + pose proof (remote_fails
                    (λ fs, ((), {| fs_ledgers := delete (uid, ledgerId) (fs_ledgers fs);
                                   fs_transactions := fs_transactions fs;
                                   fs_expenses := fs_expenses fs;
                                   fs_categories := fs_categories fs |})) w net Hnet)
        as Hdel.
      match type of Hdel with
      | _ = (_, ?w1) =>
          destruct (IH w1)
            as (others & w' & Hrest & Hlocal & Htxs & Hmono & Hgone)
      end.
      exists (false && others), w'. split.
      { erewrite bind_returned;
          [|erewrite tryCatch_thrown;
            [reflexivity|erewrite bind_thrown by exact Hdel; reflexivity]].
        cbv beta. by erewrite bind_returned by exact Hrest. }
      split; [destruct Hlocal as (? & ? & ?); by repeat split|].
      split; [exact Htxs|]. split; [exact Hmono|].
      unfold online. rewrite Hnet. by intros [[=] _]%Forall_cons.
Qed.

Lemma remoteLedgerIds_nil uid fs :
  (∀ k, fs_ledgers fs !! (uid, k) = None) → remoteLedgerIds uid fs = [].
Proof.
  intros Hnone. unfold remoteLedgerIds.
  destruct (ledgerDocsOf uid fs) as [|[k d] rest] eqn:Hdocs; [done|].
  assert ((k, d) ∈ ledgerDocsOf uid fs) as Hin by (rewrite Hdocs; by left).
  apply ledgerDocsOf_elem in Hin. by rewrite Hnone in Hin.
Qed.

Lemma clearRemoteLedgers_run uid w0 :
  ∃ w',
    tryCatch (docs ← getLedgerDocs uid; deleteAllLedgerDocs uid docs.*1)
             (λ _, mret ()) w0 = (Returned (), w') ∧
    sameLocal w0 w' ∧
    fs_transactions (firestore w') = fs_transactions (firestore w0) ∧
    (online w0 → ∀ k, fs_ledgers (firestore w') !! (uid, k) = None).
Proof.
  destruct (remote_read_run (ledgerDocsOf uid) w0)
    as (r & w1 & Hdocs & Hlocal1 & Hfs1 & Hnet1 & Hfail & Hok).
  fold (getLedgerDocs uid) in Hdocs.
  destruct (decide (head (network w0) = Some false)) as [Hhead|Hhead].
  { destruct (Hfail Hhead) as [e ->]. exists w1.
    split; [|split; [exact Hlocal1|split; [by rewrite Hfs1|]]].
    - erewrite tryCatch_thrown; [reflexivity|].
      by rewrite (bind_thrown _ _ _ _ _ Hdocs).
    - intros Honline. by apply online_head in Honline. }
  rewrite (Hok Hhead) in Hdocs.
  destruct (issueDeletes_run uid (ledgerDocsOf uid (firestore w0)).*1 w1)
    as (allFulfilled & w2 & Hissue & Hlocal2 & Htxs & Hmono & Hgone).
  exists w2. split; [|split; [by eapply sameLocal_trans|split; [congruence|]]].
  - unfold deleteAllLedgerDocs. destruct allFulfilled.
    + apply tryCatch_returned. step Hdocs. by step Hissue.
    + erewrite tryCatch_thrown; [reflexivity|].
      step Hdocs. step Hissue. reflexivity.
  - intros Honline k.
    assert (online w1) as Honline1.
    { unfold online in *. rewrite Hnet1.
      destruct (network w0) as [|b net]; simpl; [done|].
      by apply Forall_cons in Honline as [_ ?]. }
    destruct (fs_ledgers (firestore w0) !! (uid, k)) as [d|] eqn:Hdoc.
    + apply (Hgone Honline1). apply list_elem_of_fmap.
      exists (k, d). split; [done|]. by apply ledgerDocsOf_elem.
    + apply Hmono. by rewrite Hfs1.
Qed.

(** X15. storage.js [clearAllData] returns true whatever happens in
    Firestore.  Afterwards [getAllLedgers] returns the empty collection
    and the guest's ledgers are removed too; expenses, categories and
    backup settings are kept; no transaction document is deleted; and
    when a user is signed in and no Firestore call fails, no ledger
    document of that user is left. *)
Theorem clearAllData_clears_ledgers_only (w : World) :
  ∃ w',
    clearAllData w = (Returned true, w') ∧
    getAllLedgers w' = (Returned ∅, w') ∧
    asyncStorage w' !! "ledgers_guest" = None ∧
    storedExpenses w' = storedExpenses w ∧
    storedCategories w' = storedCategories w ∧
    storedSettings w' = storedSettings w ∧
    fs_transactions (firestore w') = fs_transactions (firestore w) ∧
    (∀ uid, currentUser w = Some uid → online w →
            remoteLedgerIds uid (firestore w') = []).
Proof.
  set (wa := setKeyOrder []
               (setAsyncStorage (delete (ledgersKeyOf w) (asyncStorage w)) w)).
  set (w0 := setAsyncStorage (delete "ledgers_guest" (asyncStorage wa)) wa).
  assert (∃ w', clearAllData w = (Returned true, w') ∧ sameLocal w0 w' ∧
            fs_transactions (firestore w') = fs_transactions (firestore w) ∧
            (∀ uid, currentUser w = Some uid → online w →
                    ∀ k, fs_ledgers (firestore w') !! (uid, k) = None))
    as (w' & Hrun & (Huser & Hstorage & _) & Htxs & Hgone).
  { unfold clearAllData.
    destruct (currentUser w) as [uid|] eqn:Hu.
    - destruct (clearRemoteLedgers_run uid w0) as (w' & Hremote & Hlocal & Htxs & Hgone).
      exists w'. split; [|split; [exact Hlocal|split; [exact Htxs|]]].
      + apply tryCatch_returned.
        step (eq_refl : getLedgersKey w = (Returned (ledgersKeyOf w), w)).
        step (eq_refl : removeLedgers (ledgersKeyOf w) w = (Returned (), wa)).
        step (eq_refl : removeItem "ledgers_guest" wa = (Returned (), w0)).
        step (eq_refl : getUser w0 = (Returned (currentUser w0), w0)).
        simpl. rewrite Hu. by step Hremote.
      + intros uid' [= <-] Honline. by apply Hgone.
    - exists w0. split; [|split; [apply sameLocal_refl|split; [done|done]]].
      apply tryCatch_returned.
      step (eq_refl : getLedgersKey w = (Returned (ledgersKeyOf w), w)).
      step (eq_refl : removeLedgers (ledgersKeyOf w) w = (Returned (), wa)).
      step (eq_refl : removeItem "ledgers_guest" wa = (Returned (), w0)).
      step (eq_refl : getUser w0 = (Returned (currentUser w0), w0)).
      simpl. by rewrite Hu. }
  exists w'. split; [exact Hrun|].
  simpl in Huser, Hstorage.
  rewrite getAllLedgers_reads.
  unfold storedLedgers, storedExpenses, storedCategories, storedSettings,
    ledgersKeyOf, expensesKeyOf, categoriesKeyOf, settingsKeyOf.
  rewrite Huser, Hstorage. fold (ledgersKeyOf w).
  repeat split.
  - f_equal. f_equal.
    destruct (decide (ledgersKeyOf w = "ledgers_guest")) as [->|Hne].
    + by rewrite lookup_delete_eq.
    + by rewrite lookup_delete_ne, lookup_delete_eq.
  - apply lookup_delete_eq.
  - unfold ledgersKeyOf. by rewrite !lookup_delete_ne by discriminate.
  - unfold ledgersKeyOf. by rewrite !lookup_delete_ne by discriminate.
  - unfold ledgersKeyOf. by rewrite !lookup_delete_ne by discriminate.
  - exact Htxs.
  - intros uid Hu Honline. apply remoteLedgerIds_nil. by apply Hgone.
Qed.

Lemma syncLedgerToFirebase_best_effort_witness :
  head (network (userWorld [false])) = Some false ∧
  ∃ w', syncLedgerToFirebase raviAfterAdds (userWorld [false]) = (Returned (), w') ∧
        firestore w' = firestore (userWorld [false]).
Proof.
  split; [reflexivity|].
  destruct (syncLedgerToFirebase_best_effort raviAfterAdds (userWorld [false]))
    as (w' & Hrun & _ & _ & Hfs).
  exists w'. split; [exact Hrun|]. by apply Hfs.
Defined.

Lemma clearAllData_clears_ledgers_only_witness :
  currentUser (userWorld []) = Some "u1" ∧ online (userWorld []) ∧
  remoteLedgerIds "u1" (firestore (userWorld [])) = ["L1"] ∧
  ∃ w', clearAllData (userWorld []) = (Returned true, w') ∧
        remoteLedgerIds "u1" (firestore w') = [].
Proof.
  assert (online (userWorld [])) as Honline by constructor.
  split; [reflexivity|]. split; [exact Honline|]. split; [by vm_compute|].
  destruct (clearAllData_clears_ledgers_only (userWorld []))
    as (w' & Hrun & _ & _ & _ & _ & _ & _ & Hgone).
  exists w'. split; [exact Hrun|]. by apply Hgone.
Defined.

(** ** Expenses *)









(** ** Categories *)

Lemma storedSettings_setCategories w c :
  storedSettings (setAsyncStorage (<[categoriesKeyOf w := c]> (asyncStorage w)) w)
  = storedSettings w.
Proof.
  unfold storedSettings, settingsKeyOf, categoriesKeyOf; simpl.
  by rewrite lookup_insert_ne.
Qed.

Lemma storedCategories_setCategories w l :
  storedCategories
    (setAsyncStorage
       (<[categoriesKeyOf w := Stringified (CCategories l)]> (asyncStorage w)) w)
  = l.
Proof.
  unfold storedCategories, categoriesKeyOf; simpl. by rewrite lookup_insert_eq.
Qed.

Lemma saveCategories_run categories w :
  let w0 :=
    setAsyncStorage
      (<[categoriesKeyOf w := Stringified (CCategories categories)]> (asyncStorage w))
      w in
  saveCategories categories w
  = match currentUser w with
    | Some uid =>
        if autoBackup (storedSettings w)
        then match setCategoriesDoc uid
                     {| d_list := categories; d_listUpdatedAt := clock w |} w0 with
             | (Returned _, w1) => (Returned true, w1)
             | (Thrown _, w1) => (Returned false, w1)
             end
        else (Returned true, w0)
    | None => (Returned true, w0)
    end.
Proof.
  cbv zeta. unfold saveCategories, getCategoriesKey. unfold_async; simpl.
  fold (categoriesKeyOf w).
  rewrite getBackupSettings_reads, storedSettings_setCategories. simpl.
  destruct (currentUser w) as [uid|]; [|reflexivity].
  destruct (autoBackup (storedSettings w)); [|reflexivity].
  by destruct (setCategoriesDoc uid _ _) as [[[]|e] w1].
Qed.

Lemma sameLocal_storedCategories w w' :
  sameLocal w w' → storedCategories w' = storedCategories w.
Proof.
  intros (Hu & Hs & _). unfold storedCategories, categoriesKeyOf. by rewrite Hu, Hs.
Qed.

(** X18. When no categories text is stored, or it does not parse,
    [getCategories] returns the eight default categories.  After
    [saveCategories], whatever it returned, [getCategories] returns
    exactly the saved list, the empty list included. *)
Theorem saveCategories_then_getCategories (w : World) (categories : list Category) :
  (asyncStorage w !! categoriesKeyOf w = None ∨
   asyncStorage w !! categoriesKeyOf w = Some Garbage →
   getCategories w = (Returned defaultCategories, w)) ∧
  ∃ success w',
    saveCategories categories w = (Returned success, w') ∧
    getCategories w' = (Returned categories, w').
Proof.
  split.
  - intros Hnone. rewrite getCategories_reads. unfold storedCategories.
    by destruct Hnone as [-> | ->].
  - pose proof (saveCategories_run categories w) as Hrun. cbv zeta in Hrun.
    set (w0 := setAsyncStorage _ w) in Hrun.
    assert (storedCategories w0 = categories) as Hsaved
      by apply storedCategories_setCategories.
    rewrite Hrun.
    destruct (currentUser w) as [uid|];
      [|exists true, w0; by rewrite getCategories_reads, Hsaved].
    destruct (autoBackup (storedSettings w));
      [|exists true, w0; by rewrite getCategories_reads, Hsaved].
    destruct (setCategoriesDoc uid _ w0) as [[[]|e] w1] eqn:Hset;
      apply remote_sameLocal, sameLocal_storedCategories in Hset;
      [exists true, w1|exists false, w1];
      by rewrite getCategories_reads, Hset, Hsaved.
Qed.

Lemma saveCategories_then_getCategories_witness :
  asyncStorage (guestWorld ∅) !! categoriesKeyOf (guestWorld ∅) = None ∧
  getCategories (guestWorld ∅) = (Returned defaultCategories, guestWorld ∅).
Proof.
  split; [by vm_compute|].
  apply (proj1 (saveCategories_then_getCategories (guestWorld ∅) [])).
  left. by vm_compute.
Defined.

(** X19. [fetchCategoriesFromFirebase] never throws.  Signed out, or when
    the Firestore read fails, it returns the empty list (not the
    defaults) and leaves the stored categories alone.  When the
    categories document exists its list is returned and becomes the
    stored list; when it does not, the locally stored (or default)
    categories are returned. *)
Theorem fetchCategoriesFromFirebase_outcome (w : World) :
  (currentUser w = None → fetchCategoriesFromFirebase w = (Returned [], w)) ∧
  (∀ uid, currentUser w = Some uid →
     ∃ w', sameLedgerDocs w w' ∧
       (head (network w) = Some false →
        fetchCategoriesFromFirebase w = (Returned [], w') ∧
        storedCategories w' = storedCategories w) ∧
       (head (network w) ≠ Some false →
        match fs_categories (firestore w) !! uid with
        | Some d =>
            ∃ w'', fetchCategoriesFromFirebase w = (Returned (d_list d), w'') ∧
                   getCategories w'' = (Returned (d_list d), w'')
        | None =>
            fetchCategoriesFromFirebase w = (Returned (storedCategories w), w') ∧
            storedCategories w' = storedCategories w
        end)).
Proof.
  split.
  - intros Huser. unfold fetchCategoriesFromFirebase. apply tryCatch_returned.
    rewrite (bind_returned getUser _ w _ w eq_refl). by rewrite Huser.
  - intros uid Huser.
    destruct (remote_read_run (λ fs, fs_categories fs !! uid) w)
      as (r & w1 & Hread & Hlocal & Hfs & _ & Hfail & Hok).
    fold (getCategoriesDoc uid) in Hread.
    exists w1. split; [by split; rewrite Hfs|]. split.
    + intros Hhead. destruct (Hfail Hhead) as [e ->].
      split; [|by apply sameLocal_storedCategories].
      unfold fetchCategoriesFromFirebase.
      erewrite tryCatch_thrown; [reflexivity|].
      step (eq_refl : getUser w = (Returned (currentUser w), w)). rewrite Huser.
      by rewrite (bind_thrown _ _ _ _ _ Hread).
    + intros Hhead. rewrite (Hok Hhead) in Hread.
      destruct (fs_categories (firestore w) !! uid) as [d|].
      * eexists. split.
        -- unfold fetchCategoriesFromFirebase. apply tryCatch_returned.
           step (eq_refl : getUser w = (Returned (currentUser w), w)). rewrite Huser.
           step Hread.
           step (eq_refl : getCategoriesKey w1 = (Returned (categoriesKeyOf w1), w1)).
           reflexivity.
        -- rewrite getCategories_reads. f_equal. f_equal.
           apply storedCategories_setCategories.
      * split; [|by apply sameLocal_storedCategories].
        unfold fetchCategoriesFromFirebase. apply tryCatch_returned.
        step (eq_refl : getUser w = (Returned (currentUser w), w)). rewrite Huser.
        step Hread. rewrite getCategories_reads.
        by rewrite (sameLocal_storedCategories _ _ Hlocal).
Qed.

Lemma fetchCategoriesFromFirebase_outcome_witness :
  currentUser (userWorld [false]) = Some "u1" ∧
  head (network (userWorld [false])) = Some false ∧
  (fetchCategoriesFromFirebase (userWorld [false])).1 = Returned [].
Proof.
  split; [reflexivity|]. split; [reflexivity|].
  destruct (proj2 (fetchCategoriesFromFirebase_outcome (userWorld [false])) "u1" eq_refl)
    as (w' & _ & Hfail & _).
  destruct (Hfail eq_refl) as [-> _]. reflexivity.
Defined.

(** ** Exporting a backup *)

Lemma backupData_run w :
  (sideDataCorrupt w → ∃ e, backupData w = (Thrown e, w)) ∧
  (¬ sideDataCorrupt w → backupData w = (Returned (exportedData w), w)).
Proof.
  unfold sideDataCorrupt, backupData, exportedData, expensesKeyOf, categoriesKeyOf.
  rewrite (bind_returned _ _ _ _ _ (getAllLedgers_reads w)). cbv beta.
  unfold_async; simpl.
  destruct (asyncStorage w !! ("expenses_" +:+ ownerOf (currentUser w)))
    as [[| |ce]|]; simpl;
    destruct (asyncStorage w !! ("categories_" +:+ ownerOf (currentUser w)))
      as [[| |cc]|]; simpl;
    (split; [intros [?|?]; try done; by eexists
            |intros Hok; try done; exfalso; apply Hok; by auto]).
Qed.

Lemma exportDataToBackup_good w :
  ¬ sideDataCorrupt w →
  ∃ path w',
    exportDataToBackup w = (Returned (ExportOk path), w') ∧
    asyncStorage w' = asyncStorage w ∧ firestore w' = firestore w ∧
    currentUser w' = currentUser w ∧ platform w' = platform w ∧
    match platform w with
    | native =>
        path = exportPath w ∧
        files w' = <[exportPath w := Stringified (exportedData w)]> (files w) ∧
        downloads w' = downloads w
    | web =>
        path = "web_download" ∧
        files w' = files w ∧
        downloads w'
        = downloads w ++ [("okcredit_backup_" +:+ today w +:+ ".json",
                           Stringified (exportedData w))]
    end.
Proof.
  intros Hok. destruct (backupData_run w) as [_ Hgood]. specialize (Hgood Hok).
  unfold exportDataToBackup, exportPath.
  destruct (platform w) eqn:Hos.
  - eexists _, _. split.
    { apply tryCatch_returned. step Hgood.
      unfold getPlatform, download. unfold mbind, mret, Async_bind, Async_ret.
      rewrite Hos. reflexivity. }
    by repeat split.
  - eexists _, _. split.
    { apply tryCatch_returned. step Hgood.
      unfold getPlatform, writeAsStringAsync.
      unfold mbind, mret, Async_bind, Async_ret.
      rewrite Hos. reflexivity. }
    by repeat split.
Qed.

Lemma exportDataToBackup_corrupt w :
  sideDataCorrupt w → ∃ e, exportDataToBackup w = (Returned (ExportFail e), w).
Proof.
  intros Hcorrupt. destruct (backupData_run w) as [Hbad _].
  destruct (Hbad Hcorrupt) as [e Hrun]. exists e.
  unfold exportDataToBackup. erewrite tryCatch_thrown; [reflexivity|].
  by rewrite (bind_thrown _ _ _ _ _ Hrun).
Qed.

Lemma backupData_cases w :
  (∃ e, backupData w = (Thrown e, w)) ∨ backupData w = (Returned (exportedData w), w).
Proof.
  destruct (backupData_run w) as [Hbad Hgood]. unfold sideDataCorrupt in *.
  destruct (asyncStorage w !! expensesKeyOf w) as [[| |ce]|] eqn:He;
    destruct (asyncStorage w !! categoriesKeyOf w) as [[| |cc]|] eqn:Hc;
    try (left; apply Hbad; first [by left|by right]);
    (right; apply Hgood; by intros [?|?]).
Qed.

(** X20. [exportDataToBackup] never throws and never writes to
    AsyncStorage or Firestore.  When the stored expenses or categories
    text is neither empty nor JSON it returns a failure and changes
    nothing.  When neither is the case and the stored texts have the
    shapes the application writes, a web export hands the backup object
    to the browser as a download named [okcredit_backup_<today>.json] and
    returns [web_download]; a native export writes the backup object to
    [documentDirectory] followed by that name, and the path of a
    successful result is that path. *)
Theorem exportDataToBackup_outcome (w : World) :
  (∃ res w',
     exportDataToBackup w = (Returned res, w') ∧
     asyncStorage w' = asyncStorage w ∧ firestore w' = firestore w) ∧
  (sideDataCorrupt w →
   ∃ e, exportDataToBackup w = (Returned (ExportFail e), w)) ∧
  (¬ sideDataCorrupt w →
   ledgersShaped w → expensesShaped w → categoriesShaped w →
   ∃ res w',
     exportDataToBackup w = (Returned res, w') ∧
     match platform w with
     | native =>
         files w' = <[exportPath w := Stringified (exportedData w)]> (files w) ∧
         downloads w' = downloads w ∧
         (∀ path, res = ExportOk path → path = exportPath w)
     | web =>
         res = ExportOk "web_download" ∧
         files w' = files w ∧
         downloads w'
         = downloads w ++ [("okcredit_backup_" +:+ today w +:+ ".json",
                            Stringified (exportedData w))]
     end).
Proof.
  split; [|split].
  - destruct (backupData_cases w) as [[e Hthrown]|Hdata].
    + exists (ExportFail e), w. split; [|done].
      unfold exportDataToBackup. erewrite tryCatch_thrown; [reflexivity|].
      by rewrite (bind_thrown _ _ _ _ _ Hthrown).
    + unfold exportDataToBackup. destruct (platform w) eqn:Hos.
      * eexists _, _. split.
        { apply tryCatch_returned. step Hdata.
          unfold getPlatform, download. unfold mbind, mret, Async_bind, Async_ret.
          rewrite Hos. reflexivity. }
        by split.
      * eexists _, _. split.
        { apply tryCatch_returned. step Hdata.
          unfold getPlatform, writeAsStringAsync.
          unfold mbind, mret, Async_bind, Async_ret.
          rewrite Hos. reflexivity. }
        by split.
  - apply exportDataToBackup_corrupt.
  - intros Hok _ _ _.
    destruct (exportDataToBackup_good w Hok)
      as (path & w' & Hrun & _ & _ & _ & _ & Hfile).
    exists (ExportOk path), w'. split; [exact Hrun|].
    destruct (platform w).
    + destruct Hfile as (-> & Hfiles & Hdownloads). by repeat split.
    + destruct Hfile as (-> & Hfiles & Hdownloads).
      split; [exact Hfiles|]. split; [exact Hdownloads|]. by intros path [= <-].
Qed.

Lemma exportDataToBackup_outcome_witness :
  (sideDataCorrupt corruptExpensesWorld ∧
   storedLedgers corruptExpensesWorld = {[ "L1" := raviAfterAdds ]} ∧
   ∃ e, exportDataToBackup corruptExpensesWorld
        = (Returned (ExportFail e), corruptExpensesWorld)) ∧
  (¬ sideDataCorrupt blankExpensesWorld ∧ ledgersShaped blankExpensesWorld ∧
   expensesShaped blankExpensesWorld ∧ categoriesShaped blankExpensesWorld ∧
   ∃ res w',
     exportDataToBackup blankExpensesWorld = (Returned res, w') ∧
     files w' !! "file:///docs/okcredit_backup_2024-01-01.json"
     = Some (Stringified (exportedData blankExpensesWorld)) ∧
     fieldOf (exportedData blankExpensesWorld) "expenses" = Some (JArr [])).
Proof.
  assert (sideDataCorrupt corruptExpensesWorld) as Hcorrupt
    by (left; by vm_compute).
  assert (¬ sideDataCorrupt blankExpensesWorld) as Hok
    by (intros [?|?]; by vm_compute in *).
  assert (ledgersShaped blankExpensesWorld) as Hledgers.
  { intros c Hc. vm_compute in Hc. injection Hc as <-. by eexists. }
  assert (expensesShaped blankExpensesWorld) as Hexpenses
    by (intros c Hc; by vm_compute in Hc).
  assert (categoriesShaped blankExpensesWorld) as Hcategories
    by (intros c Hc; by vm_compute in Hc).
  split.
  - split; [exact Hcorrupt|]. split; [by vm_compute|].
    apply (proj1 (proj2 (exportDataToBackup_outcome corruptExpensesWorld)) Hcorrupt).
  - split; [exact Hok|]. split; [exact Hledgers|]. split; [exact Hexpenses|].
    split; [exact Hcategories|].
    destruct (proj2 (proj2 (exportDataToBackup_outcome blankExpensesWorld))
                Hok Hledgers Hexpenses Hcategories)
      as (res & w' & Hrun & Hfiles & _).
    exists res, w'. split; [exact Hrun|]. split; [|by vm_compute].
    rewrite Hfiles. by vm_compute.
Defined.

Lemma truthy_JStr s : truthy (Some (JStr s)) = true ↔ s ≠ "".
Proof.
  unfold truthy. destruct (String.eqb_spec s ""); simpl; split; congruence.
Qed.

Lemma ledgerToJson_accepted l :
  ledgerAccepted (ledgerToJson l) ↔ l_id l ≠ "" ∧ l_name l ≠ "".
Proof.
  unfold ledgerAccepted, fieldOf, ledgerToJson; simpl.
  rewrite lookup_insert_eq.
  rewrite (lookup_insert_ne _ "id" "name") by discriminate.
  rewrite lookup_insert_eq.
  rewrite (lookup_insert_ne _ "id" "balance") by discriminate.
  rewrite (lookup_insert_ne _ "name" "balance") by discriminate.
  rewrite lookup_insert_eq.
  rewrite (lookup_insert_ne _ "id" "transactions") by discriminate.
  rewrite (lookup_insert_ne _ "name" "transactions") by discriminate.
  rewrite (lookup_insert_ne _ "balance" "transactions") by discriminate.
  rewrite lookup_insert_eq.
  rewrite !truthy_JStr. split; [by intros (_ & ? & ? & _)|].
  intros [? ?]. by repeat split.
Qed.

Lemma ledgersToJson_values m ledger :
  ledger ∈ forInValues (ledgersToJson m)
  ↔ ∃ k l, m !! k = Some l ∧ ledger = ledgerToJson l.
Proof.
  unfold ledgersToJson; simpl. rewrite list_elem_of_fmap. split.
  - intros ([k v] & -> & Hin). apply elem_of_map_to_list in Hin.
    apply lookup_fmap_Some in Hin as (l & <- & Hl). by exists k, l.
  - intros (k & l & Hl & ->). exists (k, ledgerToJson l). split; [done|].
    apply elem_of_map_to_list. by rewrite lookup_fmap, Hl.
Qed.

Lemma exportedData_valid w :
  validateBackupFile (exportedData w) = true
  ↔ ∀ k l, storedLedgers w !! k = Some l → l_id l ≠ "" ∧ l_name l ≠ "".
Proof.
  assert (validateBackupFile (exportedData w) = true
          ↔ validateBody (exportedData w) = Some true) as ->.
  { unfold validateBackupFile.
    destruct (validateBody (exportedData w)) as [[|]|]; simpl; split; congruence. }
  rewrite validateBody_accepts.
  unfold backupAccepted, fieldOf, exportedData; simpl.
  rewrite lookup_insert_eq.
  rewrite (lookup_insert_ne _ "version" "ledgers") by discriminate.
  rewrite (lookup_insert_ne _ "exportDate" "ledgers") by discriminate.
  rewrite lookup_insert_eq.
  split.
  - intros (_ & ledgers & [= <-] & _ & _ & Hall) k l Hl.
    apply ledgerToJson_accepted, Hall, ledgersToJson_values. by exists k, l.
  - intros Hall. split; [done|]. eexists. split; [reflexivity|].
    split; [done|]. split; [done|].
    intros ledger (k & l & Hl & ->)%ledgersToJson_values.
    apply ledgerToJson_accepted. by eapply Hall.
Qed.




(** ** Importing a backup, further *)

Lemma restoreBackup_valid data w :
  validateBackupFile data = true →
  ∃ ledgers,
    fieldOf data "ledgers" = Some ledgers ∧
    restoreBackup data w
    = (Returned (ImportOk (keysLength ledgers)),
       setAsyncStorage (<["ledgers" := Stringified (CJson ledgers)]> (asyncStorage w)) w).
Proof.
  intros Hvalid.
  assert (validateBody data = Some true) as Hbody.
  { unfold validateBackupFile in Hvalid.
    by destruct (validateBody data) as [[|]|]. }
  apply validateBody_accepts in Hbody as (_ & ledgers & Hfield & _).
  exists ledgers. split; [exact Hfield|].
  unfold restoreBackup. rewrite Hvalid.
  change (negb true) with false. cbv iota.
  unfold fieldOf in Hfield.
  destruct (getField (Some data) "ledgers") as [[found|]|]; simpl in Hfield;
    try done.
  injection Hfield as ->. reflexivity.
Qed.

(** X22. When the backup text an import reads parses to data that passes
    [validateBackupFile], the import succeeds: it stores the [ledgers]
    value of the data under the AsyncStorage key [ledgers], changes
    nothing else, and reports as [ledgersCount] the number of keys of that
    value. *)
Theorem importDataFromBackup_accepts_valid
    (request : ImportRequest) (w : World) (data : json) :
  importReads request w (Stringified data) →
  validateBackupFile data = true →
  ∃ ledgers,
    fieldOf data "ledgers" = Some ledgers ∧
    importDataFromBackup request w
    = (Returned (ImportOk (keysLength ledgers)),
       setAsyncStorage (<["ledgers" := Stringified (CJson ledgers)]> (asyncStorage w)) w).
Proof.
  intros Hreads Hvalid.
  destruct (restoreBackup_valid data w Hvalid) as (ledgers & Hfield & Hrestore).
  exists ledgers. split; [exact Hfield|].
  unfold importDataFromBackup, readAsStringAsync. unfold_async.
  inversion Hreads as [s Hos Hfile|uri s Hos Huri Hne Hfile|uri s Hos Huri Hpick Hfile];
    subst; rewrite Hos; simpl.
  - rewrite Hfile. simpl. by rewrite Hrestore.
  - rewrite Huri. apply String.eqb_neq in Hne. rewrite Hne. simpl.
    rewrite Hfile. simpl. by rewrite Hrestore.
  - destruct Huri as [->| ->]; simpl; rewrite Hpick, Hfile; simpl;
      by rewrite Hrestore.
Qed.

Lemma restoreBackup_total data w :
  ∃ res w',
    restoreBackup data w = (Returned res, w') ∧
    (∀ e, res = ImportFail e → w' = w) ∧
    (∀ key, key ≠ "ledgers" → asyncStorage w' !! key = asyncStorage w !! key) ∧
    firestore w' = firestore w.
Proof.
  destruct (validateBackupFile data) eqn:Hvalid.
  - destruct (restoreBackup_valid data w Hvalid) as (ledgers & _ & ->).
    eexists _, _. split; [reflexivity|]. split; [done|]. split; [|done].
    intros key Hkey. simpl. by rewrite lookup_insert_ne.
  - rewrite (restoreBackup_invalid data w Hvalid).
    eexists _, _. split; [reflexivity|]. by repeat split.
Qed.

(** X23. An import never throws: every failure (empty selection,
    cancelled picker, unreadable file, text that does not parse, invalid
    data) is returned as a failure result, and then the world is exactly
    as before.  A successful import changes no AsyncStorage key other
    than [ledgers] and nothing in Firestore. *)
Theorem importDataFromBackup_total (request : ImportRequest) (w : World) :
  ∃ res w',
    importDataFromBackup request w = (Returned res, w') ∧
    (∀ e, res = ImportFail e → w' = w) ∧
    (∀ key, key ≠ "ledgers" → asyncStorage w' !! key = asyncStorage w !! key) ∧
    firestore w' = firestore w.
Proof.
  unfold importDataFromBackup, readAsStringAsync. unfold_async.
  destruct (platform w); simpl.
  - destruct (webFile request) as [[| |data]|]; simpl;
      try (eexists _, _; split; [reflexivity|]; by repeat split).
    destruct (restoreBackup_total data w) as (res & w' & -> & Hfail & Hkeys & Hfs).
    by exists res, w'.
  - set (selected := match fileUri request with
                     | Some uri => _
                     | None => _
                     end).
    assert (∃ o, selected w = (Returned o, w)) as [o ->].
    { unfold selected. destruct (fileUri request) as [uri|]; [|by eexists].
      destruct (negb (String.eqb uri "")); by eexists. }
    destruct o as [uri|];
      [|eexists _, _; split; [reflexivity|]; by repeat split].
    destruct (files w !! uri) as [[| |data]|]; simpl;
      try (eexists _, _; split; [reflexivity|]; by repeat split).
    destruct (restoreBackup_total data w) as (res & w' & -> & Hfail & Hkeys & Hfs).
    by exists res, w'.
Qed.

Lemma append_nonempty (a b : string) : b ≠ "" → a +:+ b ≠ "".
Proof. intros Hb. destruct a; [exact Hb|discriminate]. Qed.

Lemma exportPath_nonempty w : exportPath w ≠ "".
Proof. unfold exportPath. apply append_nonempty. discriminate. Qed.



(** ** The round trip of a backup *)

Lemma importDataFromBackup_reads request w data res w' :
  importReads request w (Stringified data) →
  restoreBackup data w = (Returned res, w') →
  importDataFromBackup request w = (Returned res, w').
Proof.
  intros Hreads Hrestore.
  unfold importDataFromBackup, readAsStringAsync. unfold_async.
  inversion Hreads as [s Hos Hfile|uri s Hos Huri Hne Hfile|uri s Hos Huri Hpick Hfile];
    subst; rewrite Hos; simpl.
  - rewrite Hfile. simpl. by rewrite Hrestore.
  - rewrite Huri. apply String.eqb_neq in Hne. rewrite Hne. simpl.
    rewrite Hfile. simpl. by rewrite Hrestore.
  - destruct Huri as [->| ->]; simpl; rewrite Hpick, Hfile; simpl;
      by rewrite Hrestore.
Qed.

Lemma exportDataToBackup_succeeded w path w1 :
  exportDataToBackup w = (Returned (ExportOk path), w1) → ¬ sideDataCorrupt w.
Proof.
  intros Hexport Hcorrupt.
  destruct (exportDataToBackup_corrupt w Hcorrupt) as [e Hfail]. congruence.
Qed.

(** C3. Whenever [exportDataToBackup] has produced a backup, importing
    that backup (the written file on a device, the downloaded file in a
    browser) returns a result, and [getAllLedgers] returns after the
    import the collection it returned before the export: the same ledger
    ids, each with the same name, balance and number of transactions.
    When moreover the stored ledgers text holds a ledger collection in
    which every ledger has a non-empty id and name, the import reports
    success with the number of the stored ledgers. *)
Theorem import_of_export_keeps_collection (w w1 : World) (path : string) :
  exportDataToBackup w = (Returned (ExportOk path), w1) →
  ∃ res w2,
    importDataFromBackup (reimport w1 path) w1 = (Returned res, w2) ∧
    getAllLedgers w = (Returned (storedLedgers w), w) ∧
    getAllLedgers w2 = (Returned (storedLedgers w), w2) ∧
    observedLedgers w2 = observedLedgers w ∧
    (ledgersShaped w →
     (∀ k l, storedLedgers w !! k = Some l → l_id l ≠ "" ∧ l_name l ≠ "") →
     res = ImportOk (size (storedLedgers w))).
Proof.
  intros Hexport.
  pose proof (exportDataToBackup_succeeded _ _ _ Hexport) as Hok.
  destruct (exportDataToBackup_good w Hok)
    as (path' & w1' & Hexport' & Hstorage & _ & Huser & Hos1 & Hfile).
  rewrite Hexport in Hexport'. injection Hexport' as <- <-.
  assert (storedLedgers w1 = storedLedgers w) as Hsame.
  { unfold storedLedgers, ledgersKeyOf. by rewrite Huser, Hstorage. }
  assert (importReads (reimport w1 path) w1 (Stringified (exportedData w)))
    as Hreads.
  { destruct (platform w) eqn:Hos.
    - destruct Hfile as (_ & _ & Hdownloads).
      apply reads_web; [congruence|].
      unfold reimport; simpl. by rewrite Hdownloads, last_snoc.
    - destruct Hfile as (-> & Hfiles & _).
      eapply reads_argument; [congruence|reflexivity|apply exportPath_nonempty|].
      by rewrite Hfiles, lookup_insert_eq. }
  destruct (restoreBackup_total (exportedData w) w1)
    as (res & w2 & Hrestore & _).
  pose proof (importDataFromBackup_reads _ _ _ _ _ Hreads Hrestore) as Himport.
  pose proof (importDataFromBackup_keeps_ledgers _ _ _ _ Himport) as Hkept.
  exists res, w2. split; [exact Himport|].
  split; [apply getAllLedgers_reads|].
  split; [by rewrite getAllLedgers_reads, Hkept, Hsame|].
  split; [unfold observedLedgers; by rewrite Hkept, Hsame|].
  intros _ Hnames.
  assert (validateBackupFile (exportedData w) = true) as Hvalid
    by (by apply exportedData_valid).
  destruct (restoreBackup_valid (exportedData w) w1 Hvalid)
    as (ledgers & Hfield & Hrun).
  assert (ledgers = ledgersToJson (storedLedgers w)) as ->.
  { unfold fieldOf, exportedData in Hfield. simpl in Hfield.
    rewrite (lookup_insert_ne _ "version" "ledgers") in Hfield by discriminate.
    rewrite (lookup_insert_ne _ "exportDate" "ledgers") in Hfield by discriminate.
    rewrite lookup_insert_eq in Hfield. by injection Hfield. }
  rewrite Hrun in Hrestore. injection Hrestore as <- _.
  simpl. by rewrite map_size_fmap.
Qed.

Lemma import_of_export_keeps_collection_witness :
  ∃ w1 res w2,
    exportDataToBackup shopWorld
    = (Returned (ExportOk "file:///docs/okcredit_backup_2024-01-01.json"), w1) ∧
    importDataFromBackup
      (reimport w1 "file:///docs/okcredit_backup_2024-01-01.json") w1
    = (Returned res, w2) ∧
    observedLedgers w2 = {[ "L1" := ("L1", "Ravi", 70, 2%nat) ]}.
Proof.
  assert (exportDataToBackup shopWorld
          = (Returned (ExportOk "file:///docs/okcredit_backup_2024-01-01.json"),
             (exportDataToBackup shopWorld).2)) as Hexport by (by vm_compute).
  destruct (import_of_export_keeps_collection _ _ _ Hexport)
    as (res & w2 & Himport & _ & _ & Hobserved & _).
  eexists _, res, w2. split; [exact Hexport|]. split; [exact Himport|].
  rewrite Hobserved. by vm_compute.
Defined.

(** X25. backup.js [clearAllData] returns true and removes the
    AsyncStorage key [ledgers] only: the collection [getAllLedgers]
    returns, the expenses, the categories and the settings are what they
    were. *)
Theorem backupClearAllData_keeps_collections (w : World) :
  ∃ w',
    backupClearAllData w = (Returned true, w') ∧
    asyncStorage w' = delete "ledgers" (asyncStorage w) ∧
    getAllLedgers w' = (Returned (storedLedgers w), w') ∧
    storedExpenses w' = storedExpenses w ∧
    storedCategories w' = storedCategories w ∧
    storedSettings w' = storedSettings w.
Proof.
  eexists. split; [reflexivity|]. split; [reflexivity|].
  rewrite getAllLedgers_reads.
  unfold storedLedgers, storedExpenses, storedCategories, storedSettings,
    ledgersKeyOf, expensesKeyOf, categoriesKeyOf, settingsKeyOf; simpl.
  by rewrite !lookup_delete_ne by discriminate.
Qed.

(** ** The amount keypad *)

Lemma countDots_app a b : countDots (a +:+ b) = (countDots a + countDots b)%nat.
Proof. induction a as [|c a IH]; simpl; [done|]. rewrite IH. lia. Qed.

Lemma countDots_substring s : ∀ n, (countDots (String.substring 0 n s) ≤ countDots s)%nat.
Proof.
  induction s as [|c s IH]; intros [|n]; simpl; try lia.
  specialize (IH n). lia.
Qed.

Lemma prefix_dot c s : String.prefix "." (String c s) = Ascii.eqb c dot.
Proof.
  with_strategy transparent [String.prefix]
    (unfold String.prefix; fold String.prefix).
  destruct (Ascii.ascii_dec _ c) as [<-|Hne].
  - with_strategy transparent [String.prefix] (by destruct s).
  - symmetry. apply Ascii.eqb_neq. intros ->. by apply Hne.
Qed.

Lemma index_cons (sub : string) c s :
  String.index 0 sub (String c s)
  = if String.prefix sub (String c s) then Some 0%nat
    else match String.index 0 sub s with
         | Some n => Some (S n)
         | None => None
         end.
Proof. reflexivity. Qed.

Lemma includes_dot_false s : includes s "." = false → countDots s = 0%nat.
Proof.
  unfold includes. induction s as [|c s IH]; [done|].
  rewrite index_cons, prefix_dot. simpl countDots.
  destruct (Ascii.eqb c dot); [done|].
  destruct (String.index 0 "." s); [done|]. intros _. by rewrite IH.
Qed.

Lemma handleKeyPress_nonempty amount val :
  amount ≠ "" → val ≠ "" → handleKeyPress amount val ≠ "".
Proof.
  intros Hamount Hval. unfold handleKeyPress, dropLast.
  destruct (String.eqb val "back").
  { destruct amount as [|c [|c' rest]]; simpl; try done. }
  destruct (String.eqb val ".").
  { destruct (negb (includes amount ".")); [|done]. by destruct amount. }
  destruct (bool_decide _); [by destruct amount|].
  destruct (String.eqb amount "0"); [done|by destruct amount].
Qed.

Lemma handleKeyPress_dots amount val :
  (countDots amount ≤ 1)%nat → val ∈ keypad →
  (countDots (handleKeyPress amount val) ≤ 1)%nat.
Proof.
  intros Hdots Hval. unfold keypad in Hval.
  assert (val = "back" ∨ val = "." ∨
          (val ≠ "back" ∧ val ≠ "." ∧ countDots val = 0%nat)) as Hcases.
  { repeat (apply elem_of_cons in Hval as [->|Hval]);
      try (by apply elem_of_nil in Hval);
      try (by left); try (by right; left);
      right; right; (split; [discriminate|split; [discriminate|reflexivity]]). }
  unfold handleKeyPress, dropLast.
  destruct Hcases as [->|[->|(Hback & Hdot & Hnone)]]; simpl.
  - destruct (1 <? String.length amount)%nat; [|simpl; lia].
    etrans; [apply countDots_substring|done].
  - destruct (includes amount ".") eqn:Hinc; simpl; [done|].
    rewrite countDots_app, (includes_dot_false _ Hinc). simpl. lia.
  - apply String.eqb_neq in Hback, Hdot. rewrite Hback, Hdot.
    destruct (bool_decide _); [rewrite countDots_app; lia|].
    destruct (String.eqb amount "0"); [lia|rewrite countDots_app; lia].
Qed.

(** X26. Whatever keys of the keypad are pressed, starting from an amount
    that is not empty and has at most one decimal point (the initial "0",
    or the amount of the transaction being edited), the amount on the
    screen is never empty and never has more than one decimal point: a
    second point is refused even after an operator. *)
Theorem handleKeyPress_invariants (amount : string) (keys : list string) :
  amount ≠ "" →
  (countDots amount ≤ 1)%nat →
  Forall (λ val, val ∈ keypad) keys →
  foldl handleKeyPress amount keys ≠ "" ∧
  (countDots (foldl handleKeyPress amount keys) ≤ 1)%nat.
Proof.
  revert amount. induction keys as [|val keys IH]; intros amount Hne Hdots Hkeys;
    [done|].
  apply Forall_cons in Hkeys as [Hval Hkeys]. simpl. apply IH; [| |exact Hkeys].
  - apply handleKeyPress_nonempty; [exact Hne|].
    intros ->. unfold keypad in Hval.
    repeat (apply elem_of_cons in Hval as [Hval|Hval]; [discriminate|]).
    by apply elem_of_nil in Hval.
  - by apply handleKeyPress_dots.
Qed.

Lemma handleKeyPress_invariants_witness :
  Forall (λ val, val ∈ keypad) ["1"; "."; "5"; "+"; "2"; "."; "5"] ∧
  foldl handleKeyPress "0" ["1"; "."; "5"; "+"; "2"; "."; "5"] = "1.5+25" ∧
  (countDots (foldl handleKeyPress "0" ["1"; "."; "5"; "+"; "2"; "."; "5"]) ≤ 1)%nat.
Proof.
  assert (Forall (λ val, val ∈ keypad) ["1"; "."; "5"; "+"; "2"; "."; "5"]) as Hkeys.
  { repeat constructor; unfold keypad; set_solver. }
  split; [exact Hkeys|]. split; [by vm_compute|].
  apply (handleKeyPress_invariants "0" _ ltac:(discriminate) ltac:(simpl; lia) Hkeys).
Defined.

(** ** The dashboard's unattended sync *)





(** ** From [saveLedger] to the cloud *)





Lemma importDataFromBackup_accepts_valid_witness :
  importReads (importFrom "file:///docs/good.json") worldWithGoodBackup
              (Stringified goodBackup) ∧
  validateBackupFile goodBackup = true ∧
  ∃ w', importDataFromBackup (importFrom "file:///docs/good.json") worldWithGoodBackup
        = (Returned (ImportOk 1), w').
Proof.
  assert (importReads (importFrom "file:///docs/good.json") worldWithGoodBackup
                      (Stringified goodBackup)) as Hreads.
  { eapply reads_argument; [reflexivity|reflexivity|discriminate|by vm_compute]. }
  split; [exact Hreads|]. split; [by vm_compute|].
  destruct (importDataFromBackup_accepts_valid _ _ _ Hreads
              (eq_refl : validateBackupFile goodBackup = true))
    as (ledgers & Hfield & Hrun).
  eexists. rewrite Hrun. do 2 f_equal.
  vm_compute in Hfield. injection Hfield as <-. by vm_compute.
Defined.
